(** * Scheduling and caching core of the stock-update bot (src/bot.py)

    A shallow embedding of the time-dependent parts of [bot.py]:
    the trading-hours gate, the interval aligner, the quote cache, one
    update cycle and the restartable scheduler task, followed by the
    properties the specification states about them. *)

From Stdlib Require Import ZArith List String Ascii QArith Lia Bool.
From stdpp Require Import base gmap strings list.
From Equations Require Import Equations.
Import ListNotations.

Local Open Scope Z_scope.

(** ** Python's [datetime] and [timedelta], as far as bot.py uses them

    Every datetime of bot.py comes from [datetime.now(ET)] and keeps the
    tzinfo of that reading through [replace] and [+ timedelta]; two such
    values therefore compare, subtract and report [hour] and [weekday()]
    by their wall-clock fields.  The date is kept as its proleptic
    Gregorian ordinal ([date.toordinal()], day 1 = 0001-01-01, a Monday);
    the calendar is not cut off at [datetime.MAXYEAR]. *)
Module PyDatetime.

Record datetime : Type := mkDatetime {
  ordinal : Z;
  hour : Z;
  minute : Z;
  second : Z;
  microsecond : Z
}.

(** The field ranges the [datetime] constructor enforces. *)
Definition valid_datetime (d : datetime) : Prop :=
  1 <= ordinal d /\ 0 <= hour d < 24 /\ 0 <= minute d < 60 /\
  0 <= second d < 60 /\ 0 <= microsecond d < 1000000.

Definition time_fields_ok (d : datetime) : bool :=
  (0 <=? hour d) && (hour d <? 24) && (0 <=? minute d) && (minute d <? 60) &&
  (0 <=? second d) && (second d <? 60) &&
  (0 <=? microsecond d) && (microsecond d <? 1000000).

(** [date.weekday()]: [(toordinal() + 6) % 7], Monday = 0 ... Sunday = 6. *)
Definition weekday (d : datetime) : Z := (ordinal d + 6) mod 7.

(** [_is_leap], [_days_before_year], [_days_before_month] and [_ymd2ord]
    of the datetime module, used to write concrete dates. *)
Definition is_leap (y : Z) : bool :=
  (y mod 4 =? 0) && (negb (y mod 100 =? 0) || (y mod 400 =? 0)).

Definition days_before_year (y : Z) : Z :=
  let y1 := y - 1 in y1 * 365 + y1 / 4 - y1 / 100 + y1 / 400.

Definition days_in_month (y m : Z) : Z :=
  if m =? 2 then (if is_leap y then 29 else 28)
  else if (m =? 4) || (m =? 6) || (m =? 9) || (m =? 11) then 30 else 31.

Fixpoint days_before_month_aux (y : Z) (k : nat) : Z :=
  match k with
  | O => 0
  | S k' => days_before_month_aux y k' + days_in_month y (Z.of_nat k)
  end.

Definition days_before_month (y m : Z) : Z :=
  days_before_month_aux y (Z.to_nat (m - 1)).

Definition ymd2ord (y m d : Z) : Z :=
  days_before_year y + days_before_month y m + d.

(** [datetime(y, m, d, hh, mm, ss, us)]. *)
Definition datetime_of (y m d hh mm ss us : Z) : datetime :=
  mkDatetime (ymd2ord y m d) hh mm ss us.

(** [d.replace(hour=h, minute=m, second=s, microsecond=us)]. *)
Definition replace_hmsu (d : datetime) (h m s us : Z) : datetime :=
  mkDatetime (ordinal d) h m s us.

(** [d.replace(hour=h, minute=m)]. *)
Definition replace_hm (d : datetime) (h m : Z) : datetime :=
  mkDatetime (ordinal d) h m (second d) (microsecond d).

(** A normalised [timedelta]: [0 <= seconds < 86400],
    [0 <= microseconds < 1000000]. *)
Record timedelta : Type := mkTimedelta {
  days : Z;
  seconds : Z;
  microseconds : Z
}.

(** [timedelta(days=d, seconds=s, microseconds=us)] with the carries of
    the constructor (Python's [divmod] is floor division, as [Z.div]). *)
Definition timedelta_of (d s us : Z) : timedelta :=
  let s1 := s + us / 1000000 in
  mkTimedelta (d + s1 / 86400) (s1 mod 86400) (us mod 1000000).

Definition timedelta_minutes (m : Z) : timedelta := timedelta_of 0 (m * 60) 0.
Definition timedelta_days (n : Z) : timedelta := timedelta_of n 0 0.

(** [timedelta.__add__]. *)
Definition timedelta_add (a b : timedelta) : timedelta :=
  timedelta_of (days a + days b) (seconds a + seconds b)
               (microseconds a + microseconds b).

(** [datetime.__add__]: the datetime becomes a timedelta since day 0, the
    two are added, and the sum is split back into date and time. *)
Definition datetime_add (d : datetime) (t : timedelta) : datetime :=
  let delta :=
    timedelta_add
      (timedelta_of (ordinal d)
                    (hour d * 3600 + minute d * 60 + second d)
                    (microsecond d)) t in
  let hh := seconds delta / 3600 in
  let rem := seconds delta mod 3600 in
  mkDatetime (days delta) hh (rem / 60) (rem mod 60) (microseconds delta).

(** Tuple comparison, as [datetime._cmp] compares
    [(year, month, day, hour, minute, second, microsecond)]. *)
Fixpoint lex_ltb (xs ys : list Z) : bool :=
  match xs, ys with
  | x :: xs', y :: ys' => (x <? y) || ((x =? y) && lex_ltb xs' ys')
  | [], _ :: _ => true
  | _, _ => false
  end.

Definition fields (d : datetime) : list Z :=
  [ordinal d; hour d; minute d; second d; microsecond d].

(** [a < b] on datetimes. *)
Definition datetime_ltb (a b : datetime) : bool :=
  lex_ltb (fields a) (fields b).

End PyDatetime.
Import PyDatetime.

(** ** Trading-calendar gate and interval aligner *)

(** [INTERVAL_PRESETS.values()]. *)
Definition INTERVAL_PRESETS : list (string * Z) :=
  [("15m"%string, 15); ("30m"%string, 30); ("1h"%string, 60);
   ("2h"%string, 120); ("4h"%string, 240)].

Definition preset_minutes : list Z := map snd INTERVAL_PRESETS.

(** [is_trading_hours], with the reading of [datetime.now(ET)] as [now]. *)
Definition is_trading_hours (now : datetime) : bool :=
  if 4 <? weekday now then false
  else (4 <=? hour now) && (hour now <? 20).

(** The loop [while next_time.weekday() > 4: next_time += timedelta(days=1)].
    The measure counts the days left to Monday; a value whose time fields
    are out of range is normalised by the first addition. *)
Definition days_to_monday (d : datetime) : nat :=
  if time_fields_ok d then Z.to_nat ((7 - weekday d) mod 7) else 7%nat.

Lemma datetime_add_time_fields_ok (d : datetime) (t : timedelta) :
  time_fields_ok (datetime_add d t) = true.
Proof.
  unfold time_fields_ok, datetime_add, timedelta_add, timedelta_of; simpl.
  repeat match goal with
  | |- context [?a mod ?b] =>
      lazymatch goal with
      | _ : 0 <= a mod b < b |- _ => fail
      | _ => assert (0 <= a mod b < b) by (apply Z.mod_pos_bound; lia)
      end
  end.
  set (s := (_ mod 86400)) in *.
  assert (0 <= s / 3600 < 24) by (split; [apply Z.div_pos; lia | apply Z.div_lt_upper_bound; lia]).
  set (r := (s mod 3600)) in *.
  assert (0 <= r / 60 < 60) by (split; [apply Z.div_pos; lia | apply Z.div_lt_upper_bound; lia]).
  repeat (apply andb_true_intro; split); lia.
Qed.

Lemma datetime_add_one_day (d : datetime) :
  time_fields_ok d = true ->
  datetime_add d (timedelta_days 1) =
  mkDatetime (ordinal d + 1) (hour d) (minute d) (second d) (microsecond d).
Proof.
  unfold time_fields_ok. intros H.
  repeat (apply andb_prop in H; destruct H as [H ?]).
  unfold datetime_add, timedelta_add, timedelta_days, timedelta_of; simpl.
  change (0 / 1000000) with 0. change (0 mod 1000000) with 0.
  change ((0 + 0) mod 86400) with 0. change ((0 + 0) / 86400) with 0.
  rewrite !Z.add_0_r.
  rewrite (Z.mod_small (microsecond d) 1000000) by lia.
  rewrite (Z.div_small (microsecond d) 1000000) by lia.
  rewrite !Z.add_0_r.
  set (s := hour d * 3600 + minute d * 60 + second d).
  assert (Hs : 0 <= s < 86400) by (unfold s; lia).
  rewrite !(Z.mod_small s 86400), !(Z.div_small s 86400) by lia.
  rewrite ?(Z.mod_small (microsecond d) 1000000) by lia.
  rewrite !Z.add_0_r.
  assert (Hh : s / 3600 = hour d).
  { unfold s. symmetry. apply (Z.div_unique _ _ _ (minute d * 60 + second d)); lia. }
  assert (Hr : s mod 3600 = minute d * 60 + second d).
  { unfold s. symmetry. apply (Z.mod_unique _ _ (hour d)); lia. }
  rewrite Hh, Hr.
  f_equal.
  - symmetry. apply (Z.div_unique _ _ _ (second d)); lia.
  - symmetry. apply (Z.mod_unique _ _ (minute d)); lia.
Qed.

Equations? skip_weekends (next_time : datetime) : datetime
  by wf (days_to_monday next_time) lt :=
  skip_weekends next_time with Z_lt_dec 4 (weekday next_time) => {
    | left _ => skip_weekends (datetime_add next_time (timedelta_days 1));
    | right _ => next_time }.
Proof.
  unfold days_to_monday.
  rewrite datetime_add_time_fields_ok.
  destruct (time_fields_ok next_time) eqn:Hok.
  - rewrite datetime_add_one_day by exact Hok.
    unfold weekday in *; simpl.
    assert (0 <= (ordinal next_time + 6) mod 7 < 7) by (apply Z.mod_pos_bound; lia).
    assert (Hc : (ordinal next_time + 6) mod 7 = 5 \/ (ordinal next_time + 6) mod 7 = 6) by lia.
    replace (ordinal next_time + 1 + 6) with ((ordinal next_time + 6) + 1) by lia.
    rewrite Z.add_mod by lia.
    destruct Hc as [-> | ->]; vm_compute; lia.
  - assert (0 <= (7 - weekday (datetime_add next_time (timedelta_days 1))) mod 7 < 7)
      by (apply Z.mod_pos_bound; lia).
    lia.
Qed.

(** The candidate of [get_next_interval_time]: midnight of [now] plus the
    next multiple of the interval. *)
Definition next_interval_candidate (interval_minutes : Z) (now : datetime) : datetime :=
  let minutes_since_midnight := hour now * 60 + minute now in
  let intervals_passed := minutes_since_midnight / interval_minutes in
  let next_interval_minutes := (intervals_passed + 1) * interval_minutes in
  datetime_add (replace_hmsu now 0 0 0 0) (timedelta_minutes next_interval_minutes).

(** [get_next_interval_time], with the reading of [datetime.now(ET)] as
    [now]. *)
Definition get_next_interval_time (interval_minutes : Z) (now : datetime) : datetime :=
  let next_time := next_interval_candidate interval_minutes now in
  if 20 <=? hour next_time then
    skip_weekends (datetime_add (replace_hm next_time 4 0) (timedelta_days 1))
  else next_time.

(** ** The world bot.py runs in

    What bot.py only consumes is given by an environment: the readings of
    the clock, the answers of the quote provider, the channels the chat
    client can resolve and the rendering of a float with two decimals.
    Clock readings and provider answers are indexed by how many were taken
    before, so that any course of the outside world is an environment. *)

(** The dict [_fetch_stock_data_raw] returns; floats are taken as
    rationals. *)
Record Quote : Type := mkQuote {
  q_ticker : string;
  q_price : Q;
  q_change : Q;
  q_change_percent : Q;
  q_year_high : option Q;
  q_year_low : option Q;
  q_fifty_two_week_context : option string;
  q_extended_price : option Q;
  q_extended_label : option string;
  q_market_cap : option Q;
  q_pe_ratio : option Q
}.

(** The dict [load_config] returns. *)
Record Config : Type := mkConfig {
  channel_id : option Z;
  stocks : list string;
  interval_minutes : Z
}.

(** The JSON object of stocks.json: each key may be missing. *)
Record ConfigFile : Type := mkConfigFile {
  file_channel_id : option (option Z);
  file_stocks : option (list string);
  file_interval_minutes : option Z
}.

(** [discord.Embed(title=..., timestamp=..., color=...)] with its
    description. *)
Record Embed : Type := mkEmbed {
  title : string;
  timestamp : datetime;
  color : Z;
  description : string
}.

Record Env : Type := mkEnv {
  (** the n-th clock reading, as [time.time()] gives it *)
  time_time : nat -> Q;
  (** the n-th clock reading, as [datetime.now(ET)] gives it *)
  datetime_now_ET : nat -> datetime;
  (** the n-th clock reading, as [datetime.now(pytz.UTC)] gives it *)
  datetime_now_UTC : nat -> datetime;
  (** [_fetch_stock_data_raw(ticker)] when n fetches were made before *)
  fetch_stock_data_raw : string -> nat -> option Quote;
  (** [bot.get_channel(channel_id)] *)
  get_channel : Z -> option Z;
  (** the format specification [:.2f] *)
  format_2f : Q -> string
}.

(** The mutable state: the module-level [_cache], the file stocks.json
    ([None]: missing or not JSON), and what has been done to the outside
    world so far. *)
Record World : Type := mkWorld {
  _cache : gmap string (Quote * Q);
  config_file : option ConfigFile;
  clock_reads : nat;
  fetch_log : list string;
  sent : list (Z * Embed)
}.

(** A state monad over [World]. *)
Definition M (A : Type) : Type := World -> A * World.

Definition ret {A : Type} (a : A) : M A := fun w => (a, w).

Definition bind {A B : Type} (m : M A) (k : A -> M B) : M B :=
  fun w => let (a, w') := m w in k a w'.

Declare Scope m_scope.
Delimit Scope m_scope with m.
Notation "'do' x <- m ; k" := (bind m (fun x => k))
  (at level 10, x name, m at level 100, k at level 200) : m_scope.
Notation "'exec' m ; k" := (bind m (fun _ => k))
  (at level 10, m at level 100, k at level 200) : m_scope.
Local Open Scope m_scope.

Definition CACHE_TTL : Q := 60%Q.

(** [str.upper()] on ASCII symbols. *)
Definition upper_ascii (c : ascii) : ascii :=
  let n := nat_of_ascii c in
  if ((97 <=? n) && (n <=? 122))%nat then ascii_of_nat (n - 32) else c.

Fixpoint upper (s : string) : string :=
  match s with
  | EmptyString => EmptyString
  | String c s' => String (upper_ascii c) (upper s')
  end.

Section Bot.

Variable env : Env.

(** One reading of the clock, through [time.time()]. *)
Definition read_time : M Q :=
  fun w => (time_time env (clock_reads w),
            mkWorld (_cache w) (config_file w) (S (clock_reads w)) (fetch_log w) (sent w)).

(** One reading of the clock, through [datetime.now(ET)]. *)
Definition read_now_ET : M datetime :=
  fun w => (datetime_now_ET env (clock_reads w),
            mkWorld (_cache w) (config_file w) (S (clock_reads w)) (fetch_log w) (sent w)).

(** One reading of the clock, through [datetime.now(pytz.UTC)]. *)
Definition read_now_UTC : M datetime :=
  fun w => (datetime_now_UTC env (clock_reads w),
            mkWorld (_cache w) (config_file w) (S (clock_reads w)) (fetch_log w) (sent w)).

(** One call of [_fetch_stock_data_raw]; it catches every exception and
    returns [None] instead. *)
Definition _fetch_stock_data_raw (ticker : string) : M (option Quote) :=
  fun w => (fetch_stock_data_raw env ticker (length (fetch_log w)),
            mkWorld (_cache w) (config_file w) (clock_reads w)
                    (fetch_log w ++ [ticker]) (sent w)).

Definition cache_lookup (ticker : string) : M (option (Quote * Q)) :=
  fun w => (_cache w !! ticker, w).

(** [_cache[ticker] = (data, ts)]. *)
Definition cache_store (ticker : string) (data : Quote) (ts : Q) : M unit :=
  fun w => (tt, mkWorld (<[ticker := (data, ts)]> (_cache w)) (config_file w)
                        (clock_reads w) (fetch_log w) (sent w)).

(** [get_cached_stock].  The entry is tested by
    [time.time() - ts < CACHE_TTL]; a stale or missing entry falls through
    to the fetch, and only a fetched quote is stored. *)
Definition get_cached_stock (ticker : string) : M (option Quote) :=
  let ticker := upper ticker in
  do entry <- cache_lookup ticker;
  do hit <- match entry with
            | Some (data, ts) =>
                do now <- read_time;
                ret (if Qlt_le_dec (now - ts) CACHE_TTL then Some data else None)
            | None => ret None
            end;
  match hit with
  | Some data => ret (Some data)
  | None =>
      do data <- _fetch_stock_data_raw ticker;
      match data with
      | Some q => do now <- read_time; exec cache_store ticker q now; ret (Some q)
      | None => ret None
      end
  end.

(** [clear_cache]. *)
Definition clear_cache : M unit :=
  fun w => (tt, mkWorld ∅ (config_file w) (clock_reads w) (fetch_log w) (sent w)).

(** [get_stock_data]. *)
Definition get_stock_data (ticker : string) : M (option Quote) :=
  get_cached_stock ticker.

(** [fetch_all_stocks]: it awaits nothing, so it runs in one piece. *)
Fixpoint fetch_all_stocks (tickers : list string) : M (list (option Quote)) :=
  match tickers with
  | [] => ret []
  | ticker :: rest =>
      do data <- get_stock_data ticker;
      do stocks_data <- fetch_all_stocks rest;
      ret (data :: stocks_data)
  end.

(** [load_config]: the defaults fill in the keys the file lacks.  A file
    that is missing or is not JSON is [None]; a file holding a JSON object
    is [Some f].  A file on which [open] or [json.load] raises something
    else, or whose JSON is not an object, is not a state of this model. *)
Definition defaults : Config := mkConfig None [] 60.

Definition load_config : M Config :=
  fun w =>
    (match config_file w with
     | Some f =>
         mkConfig (default (channel_id defaults) (file_channel_id f))
                  (default (stocks defaults) (file_stocks f))
                  (default (interval_minutes defaults) (file_interval_minutes f))
     | None => defaults
     end, w).

(** [strftime("%I:%M %p ET")]: the hour on the 12-hour clock and the
    minute, two digits each, then AM or PM. *)
Definition digit (n : Z) : ascii := ascii_of_nat (48 + Z.to_nat n).

Definition two_digits (n : Z) : string :=
  String (digit (n / 10)) (String (digit (n mod 10)) EmptyString).

Definition strftime_I_M_p_ET (d : datetime) : string :=
  let h12 := if hour d mod 12 =? 0 then 12 else hour d mod 12 in
  (two_digits h12 ++ ":" ++ two_digits (minute d) ++ " " ++
   (if (hour d <? 12)%Z then "AM" else "PM") ++ " ET")%string.

(** Truth values of the optional fields, as [if x:] tests them. *)
Definition truthy_number (x : option Q) : bool :=
  match x with Some v => negb (Qeq_bool v 0) | None => false end.

Definition truthy_string (x : option string) : bool :=
  match x with Some s => negb (String.eqb s "") | None => false end.

Definition newline : string := String (ascii_of_nat 10) EmptyString.

(** [discord.Color.blue()]. *)
Definition Color_blue : Z := 3447003.

(** The body of the [for data in stocks_data] loop for a quote. *)
Definition stock_line (data : Quote) : string :=
  let ticker := q_ticker data in
  let emoji := if Qle_bool 0 (q_change data) then "🟢" else "🔴" in
  let sign := if Qle_bool 0 (q_change data) then "+" else "" in
  let price_str := ("$" ++ format_2f env (q_price data))%string in
  let price_str :=
    if truthy_number (q_extended_price data) && truthy_string (q_extended_label data)
    then (price_str ++ "  (" ++ default "" (q_extended_label data) ++ ": $" ++
          format_2f env (default 0%Q (q_extended_price data)) ++ ")")%string
    else price_str in
  let line := (emoji ++ " **" ++ ticker ++ "** — " ++ price_str ++ newline)%string in
  let change_str :=
    (sign ++ "$" ++ format_2f env (q_change data) ++ " (" ++ sign ++
     format_2f env (q_change_percent data) ++ "%)")%string in
  if truthy_string (q_fifty_two_week_context data)
  then (line ++ "　　" ++ change_str ++ " · " ++
        default "" (q_fifty_two_week_context data))%string
  else (line ++ "　　" ++ change_str)%string.

(** The loop itself: [None] entries are skipped. *)
Fixpoint stock_lines (stocks_data : list (option Quote)) : list string :=
  match stocks_data with
  | [] => []
  | None :: rest => stock_lines rest
  | Some data :: rest => stock_line data :: stock_lines rest
  end.

(** [create_stock_embed]. *)
Definition create_stock_embed (stocks_data : list (option Quote)) : M Embed :=
  do now_et <- read_now_ET;
  let time_str := strftime_I_M_p_ET now_et in
  do now_utc <- read_now_UTC;
  let embed_title := ("📈 Stock Update (" ++ time_str ++ ")")%string in
  match stocks_data with
  | [] => ret (mkEmbed embed_title now_utc Color_blue "No stock data available.")
  | _ :: _ =>
      let lines := stock_lines stocks_data in
      ret (mkEmbed embed_title now_utc Color_blue
             (match lines with
              | [] => "No valid stock data."
              | _ :: _ => String.concat (newline ++ newline) lines
              end))
  end.

(** The call [channel.send(embed=embed)]: the message is handed to the
    chat client. *)
Definition channel_send (channel : Z) (embed : Embed) : M unit :=
  fun w => (tt, mkWorld (_cache w) (config_file w) (clock_reads w) (fetch_log w)
                        (sent w ++ [(channel, embed)])).

(** How far a call of [run_scheduled_update] gets before it first
    suspends: it returns, or it waits in [await channel.send(...)]. *)
Inductive update_progress : Type :=
| Returned
| AwaitingSend.

(** [not channel_id]: [None] and [0] are both false values. *)
Definition falsy_channel_id (c : option Z) : bool :=
  match c with Some n => n =? 0 | None => true end.

Definition falsy_list {A : Type} (l : list A) : bool :=
  match l with [] => true | _ :: _ => false end.

(** [run_scheduled_update], up to its only suspension point. *)
Definition run_scheduled_update : M update_progress :=
  do config <- load_config;
  let channel_id := channel_id config in
  let stocks := stocks config in
  if falsy_channel_id channel_id || falsy_list stocks then ret Returned
  else
    do now <- read_now_ET;
    if negb (is_trading_hours now) then ret Returned
    else
      match get_channel env (default 0 channel_id) with
      | None => ret Returned
      | Some channel =>
          do stocks_data <- fetch_all_stocks stocks;
          do embed <- create_stock_embed stocks_data;
          exec channel_send channel embed;
          ret AwaitingSend
      end.

(** ** The scheduler task

    [scheduled_update_loop] is a coroutine: it runs until it awaits
    something that is not ready, and the event loop resumes it there later,
    with the result of what it awaited or with an exception thrown into it.
    A task is therefore kept as the await it is suspended at.
    [Task.cancel()] asks the event loop to throw [asyncio.CancelledError]
    into the coroutine at its next resumption; that error is a
    [BaseException], so the [except Exception] of the loop lets it pass.
    Lines written with [print] are not part of the model. *)

Inductive point : Type :=
| NotStarted    (* created by [asyncio.create_task], not yet run *)
| AtWaitReady   (* [await bot.wait_until_ready()] *)
| AtSleep       (* [await asyncio.sleep(wait_seconds)] *)
| AtSend        (* [await channel.send(embed=embed)], inside the [try] *)
| AtCooldown    (* [await asyncio.sleep(5)] *)
| Finished.     (* the coroutine has ended *)

Inductive resumption : Type :=
| Resumes          (* what was awaited has returned *)
| ThrowsException  (* what was awaited raised an [Exception] *)
| ThrowsCancelled. (* [asyncio.CancelledError] is thrown in *)

(** [try: await run_scheduled_update()], up to the next await. *)
Definition run_the_update : M point :=
  do progress <- run_scheduled_update;
  match progress with
  | Returned => ret AtCooldown
  | AwaitingSend => ret AtSend
  end.

(** The head of [while True], up to the next await.  A stored interval of
    0 makes [//] raise [ZeroDivisionError] outside the [try], which ends
    the coroutine.  Dates are not bounded by [datetime.max] here, so an
    interval whose [timedelta] overflows is not covered. *)
Definition loop_head : M point :=
  do config <- load_config;
  let interval_minutes := interval_minutes config in
  do clock <- read_now_ET;
  if interval_minutes =? 0 then ret Finished
  else
    let next_time := get_next_interval_time interval_minutes clock in
    do now <- read_now_ET;
    if datetime_ltb now next_time then ret AtSleep
    else run_the_update.

(** [scheduled_update_loop], one resumption at a time: from the await
    [p] it is suspended at to the next one. *)
Definition scheduled_update_loop (ready : bool) (p : point) (r : resumption) : M point :=
  match p, r with
  | Finished, _ => ret Finished
  | _, ThrowsCancelled => ret Finished
  | NotStarted, _ => if ready then loop_head else ret AtWaitReady
  | AtSend, _ => ret AtCooldown
  | _, ThrowsException => ret Finished
  | AtWaitReady, Resumes => loop_head
  | AtSleep, Resumes => run_the_update
  | AtCooldown, Resumes => loop_head
  end.

(** An [asyncio.Task] running [scheduled_update_loop]. *)
Record Task : Type := mkTask {
  suspended_at : point;
  must_cancel : bool
}.

(** [Task.done()]. *)
Definition done (t : Task) : bool :=
  match suspended_at t with Finished => true | _ => false end.

(** [Task.cancel()]: no effect on a task that is done. *)
Definition cancel (t : Task) : Task :=
  if done t then t else mkTask (suspended_at t) true.

(** The process: the world, the tasks created so far (a task is named by
    its position), the global [scheduled_task] and whether the chat client
    is ready. *)
Record Process : Type := mkProcess {
  world : World;
  tasks : list Task;
  scheduled_task : option nat;
  ready : bool
}.

(** [start_scheduled_task]. *)
Definition start_scheduled_task (p : Process) : Process :=
  let tasks1 :=
    match scheduled_task p with
    | Some tid =>
        match tasks p !! tid with
        | Some t => if negb (done t) then <[tid := cancel t]> (tasks p) else tasks p
        | None => tasks p
        end
    | None => tasks p
    end in
  mkProcess (world p) (tasks1 ++ [mkTask NotStarted false])
            (Some (length tasks1)) (ready p).

(** What can happen to the process. *)
Inductive event : Type :=
| CallStart                        (* [on_ready] or [!setinterval] calls [start_scheduled_task] *)
| Wake (tid : nat) (failed : bool) (* the event loop resumes a task; [failed]: the awaited call raised *)
| SetReady (b : bool)              (* the chat client connects or disconnects *)
| WriteConfig (f : option ConfigFile) (* a command rewrites stocks.json *)
| Lookup (ticker : string).        (* a command calls [get_stock_data] *)

Definition wake (tid : nat) (failed : bool) (p : Process) : Process :=
  match tasks p !! tid with
  | Some t =>
      if done t then p
      else
        let r := if must_cancel t then ThrowsCancelled
                 else if failed then ThrowsException else Resumes in
        let (pt, w) := scheduled_update_loop (ready p) (suspended_at t) r (world p) in
        mkProcess w (<[tid := mkTask pt false]> (tasks p)) (scheduled_task p) (ready p)
  | None => p
  end.

Definition step (p : Process) (e : event) : Process :=
  match e with
  | CallStart => start_scheduled_task p
  | Wake tid failed => wake tid failed p
  | SetReady b => mkProcess (world p) (tasks p) (scheduled_task p) b
  | WriteConfig f =>
      mkProcess (mkWorld (_cache (world p)) f (clock_reads (world p))
                         (fetch_log (world p)) (sent (world p)))
                (tasks p) (scheduled_task p) (ready p)
  | Lookup ticker =>
      mkProcess (snd (get_stock_data ticker (world p)))
                (tasks p) (scheduled_task p) (ready p)
  end.

(** The process after a list of events, from a start with no task. *)
Definition boot (w : World) : Process := mkProcess w [] None false.

Definition run (w : World) (events : list event) : Process :=
  fold_left step events (boot w).

(** A task that is neither done nor asked to stop. *)
Definition active (t : Task) : bool := negb (done t) && negb (must_cancel t).

End Bot.

(** * Properties *)

(** ** Calendar arithmetic *)

Lemma weekday_range (d : datetime) : 0 <= weekday d < 7.
Proof. unfold weekday. apply Z.mod_pos_bound. lia. Qed.

Lemma time_fields_ok_spec (d : datetime) :
  time_fields_ok d = true <->
  0 <= hour d < 24 /\ 0 <= minute d < 60 /\ 0 <= second d < 60 /\
  0 <= microsecond d < 1000000.
Proof.
  unfold time_fields_ok. rewrite !andb_true_iff. lia.
Qed.

Lemma valid_time_fields_ok (d : datetime) :
  valid_datetime d -> time_fields_ok d = true.
Proof. intros (_ & H). apply time_fields_ok_spec. exact H. Qed.

(** Adding whole minutes to a midnight. *)
Lemma midnight_add_minutes (o m : Z) :
  datetime_add (mkDatetime o 0 0 0 0) (timedelta_minutes m) =
  mkDatetime (o + m / 1440) ((m mod 1440) / 60) ((m mod 1440) mod 60) 0 0.
Proof.
  unfold datetime_add, timedelta_add, timedelta_minutes, timedelta_of; cbn.
  rewrite !Z.add_0_r.
  assert (Hs : (m * 60) mod 86400 = (m mod 1440) * 60).
  { pose proof (Z.mod_pos_bound m 1440 ltac:(lia)).
    symmetry. apply (Z.mod_unique _ _ (m / 1440)); [lia|].
    pose proof (Z.div_mod m 1440 ltac:(lia)). lia. }
  assert (Hd : (m * 60) / 86400 = m / 1440).
  { pose proof (Z.mod_pos_bound m 1440 ltac:(lia)).
    symmetry. apply (Z.div_unique _ _ _ ((m mod 1440) * 60)); [lia|].
    pose proof (Z.div_mod m 1440 ltac:(lia)). lia. }
  rewrite Hs, Hd.
  set (r := m mod 1440).
  assert (Hr : 0 <= r < 1440) by (apply Z.mod_pos_bound; lia).
  change ((0 * 3600) mod 86400) with 0.
  change ((0 mod 1000000) mod 1000000) with 0.
  rewrite !Z.add_0_l.
  rewrite !(Z.mod_small (r * 60) 86400), !(Z.div_small (r * 60) 86400) by lia.
  rewrite !Z.add_0_r.
  assert (Hh : (r * 60) / 3600 = r / 60).
  { pose proof (Z.mod_pos_bound r 60 ltac:(lia)).
    symmetry. apply (Z.div_unique _ _ _ ((r mod 60) * 60)); [lia|].
    pose proof (Z.div_mod r 60 ltac:(lia)). lia. }
  assert (Hm : (r * 60) mod 3600 = (r mod 60) * 60).
  { pose proof (Z.mod_pos_bound r 60 ltac:(lia)).
    symmetry. apply (Z.mod_unique _ _ (r / 60)); [lia|].
    pose proof (Z.div_mod r 60 ltac:(lia)). lia. }
  rewrite Hh, Hm, Z.div_mul, Z.mod_mul by lia.
  reflexivity.
Qed.

Lemma skip_weekends_step (d : datetime) :
  skip_weekends d =
  if Z_lt_dec 4 (weekday d)
  then skip_weekends (datetime_add d (timedelta_days 1))
  else d.
Proof.
  rewrite skip_weekends_equation_1.
  destruct (Z_lt_dec 4 (weekday d)); reflexivity.
Qed.

(** Saturday moves to Monday, Sunday moves to Monday, a weekday stays. *)
Definition days_skipped (d : datetime) : Z :=
  if weekday d =? 5 then 2 else if weekday d =? 6 then 1 else 0.

Lemma weekday_shift (o k h m s u : Z) :
  weekday (mkDatetime (o + k) h m s u) = (weekday (mkDatetime o h m s u) + k) mod 7.
Proof.
  unfold weekday; cbn [ordinal].
  replace (o + k + 6) with ((o + 6) + k) by lia.
  rewrite Z.add_mod_idemp_l by lia. reflexivity.
Qed.

Lemma skip_weekends_eq (d : datetime) :
  time_fields_ok d = true ->
  skip_weekends d =
  mkDatetime (ordinal d + days_skipped d) (hour d) (minute d) (second d)
             (microsecond d).
Proof.
  intros Hok. destruct d as [o h m s u].
  assert (Hok' : forall k, time_fields_ok (mkDatetime (o + k) h m s u) = true).
  { intros k. apply time_fields_ok_spec. apply time_fields_ok_spec in Hok. exact Hok. }
  pose proof (weekday_range (mkDatetime o h m s u)) as Hr.
  pose proof (weekday_shift o 1 h m s u) as H1.
  pose proof (weekday_shift o 2 h m s u) as H2.
  unfold days_skipped. cbn [ordinal hour minute second microsecond].
  rewrite skip_weekends_step.
  destruct (Z_lt_dec 4 (weekday (mkDatetime o h m s u))) as [Hwe | Hwd].
  - rewrite datetime_add_one_day by exact Hok.
    cbn [ordinal hour minute second microsecond].
    rewrite skip_weekends_step.
    assert (Hc : weekday (mkDatetime o h m s u) = 5 \/ weekday (mkDatetime o h m s u) = 6) by lia.
    destruct Hc as [Hc | Hc]; rewrite Hc in *.
    + change ((5 + 1) mod 7) with 6 in H1. change ((5 + 2) mod 7) with 0 in H2.
      rewrite H1.
      destruct (Z_lt_dec 4 6) as [_ | Hn]; [ | lia].
      rewrite datetime_add_one_day by apply Hok'.
      cbn [ordinal hour minute second microsecond].
      replace (o + 1 + 1) with (o + 2) by lia.
      rewrite skip_weekends_step, H2.
      destruct (Z_lt_dec 4 0) as [Hn | _]; [lia | ]. reflexivity.
    + change ((6 + 1) mod 7) with 0 in H1.
      rewrite H1.
      destruct (Z_lt_dec 4 0) as [Hn | _]; [lia | ]. reflexivity.
  - assert (H5 : (weekday (mkDatetime o h m s u) =? 5) = false) by (apply Z.eqb_neq; lia).
    assert (H6 : (weekday (mkDatetime o h m s u) =? 6) = false) by (apply Z.eqb_neq; lia).
    rewrite H5, H6, Z.add_0_r. reflexivity.
Qed.

(** The weekend loop stops on a weekday. *)
Lemma skip_weekends_weekday (d : datetime) :
  time_fields_ok d = true -> weekday (skip_weekends d) <= 4.
Proof.
  intros Hok. rewrite skip_weekends_eq by exact Hok.
  destruct d as [o h m s u]. cbn [ordinal hour minute second microsecond].
  rewrite weekday_shift. unfold days_skipped.
  pose proof (weekday_range (mkDatetime o h m s u)) as Hr.
  destruct (weekday (mkDatetime o h m s u) =? 5) eqn:E5.
  - apply Z.eqb_eq in E5. rewrite E5. vm_compute. discriminate.
  - destruct (weekday (mkDatetime o h m s u) =? 6) eqn:E6.
    + apply Z.eqb_eq in E6. rewrite E6. vm_compute. discriminate.
    + apply Z.eqb_neq in E5. apply Z.eqb_neq in E6.
      rewrite Z.add_0_r, Z.mod_small by lia. lia.
Qed.

Lemma days_skipped_range (d : datetime) : 0 <= days_skipped d <= 2.
Proof.
  unfold days_skipped.
  destruct (weekday d =? 5); [lia | destruct (weekday d =? 6); lia].
Qed.

(** ** Interval aligner *)

Lemma preset_minutes_cases (i : Z) :
  In i preset_minutes -> i = 15 \/ i = 30 \/ i = 60 \/ i = 120 \/ i = 240.
Proof. cbn. intuition. Qed.

(** The minutes after midnight of the candidate: the next multiple of the
    interval, at most one whole day. *)
Definition next_interval_minutes (interval_minutes : Z) (now : datetime) : Z :=
  ((hour now * 60 + minute now) / interval_minutes + 1) * interval_minutes.

Lemma next_interval_minutes_bounds (i : Z) (now : datetime) :
  In i preset_minutes -> time_fields_ok now = true ->
  hour now * 60 + minute now < next_interval_minutes i now <= 1440 /\
  next_interval_minutes i now mod i = 0.
Proof.
  intros Hi Hok. apply time_fields_ok_spec in Hok.
  unfold next_interval_minutes.
  set (msm := hour now * 60 + minute now).
  assert (Hm : 0 <= msm < 1440) by (unfold msm; lia).
  split.
  - apply preset_minutes_cases in Hi.
    destruct Hi as [-> | [-> | [-> | [-> | ->]]]];
      Z.div_mod_to_equations; lia.
  - apply Z.mod_mul. apply preset_minutes_cases in Hi. lia.
Qed.

Lemma next_interval_candidate_eq (i : Z) (now : datetime) :
  next_interval_candidate i now =
  let m := next_interval_minutes i now in
  mkDatetime (ordinal now + m / 1440) ((m mod 1440) / 60) ((m mod 1440) mod 60) 0 0.
Proof.
  unfold next_interval_candidate, replace_hmsu.
  apply midnight_add_minutes.
Qed.

(** The candidate has a valid time of day with no seconds. *)
Lemma next_interval_candidate_fields (i : Z) (now : datetime) :
  time_fields_ok (next_interval_candidate i now) = true /\
  second (next_interval_candidate i now) = 0 /\
  microsecond (next_interval_candidate i now) = 0.
Proof.
  split.
  - apply datetime_add_time_fields_ok.
  - rewrite next_interval_candidate_eq. split; reflexivity.
Qed.

(** The rollover branch in closed form. *)
Lemma rollover_eq (c : datetime) :
  time_fields_ok c = true ->
  skip_weekends (datetime_add (replace_hm c 4 0) (timedelta_days 1)) =
  let d := mkDatetime (ordinal c + 1) 4 0 (second c) (microsecond c) in
  mkDatetime (ordinal c + 1 + days_skipped d) 4 0 (second c) (microsecond c).
Proof.
  intros Hok.
  assert (Hr : time_fields_ok (replace_hm c 4 0) = true).
  { apply time_fields_ok_spec. apply time_fields_ok_spec in Hok.
    unfold replace_hm; cbn. lia. }
  rewrite datetime_add_one_day by exact Hr.
  unfold replace_hm; cbn [ordinal hour minute second microsecond].
  rewrite skip_weekends_eq; [reflexivity | ].
  apply time_fields_ok_spec. apply time_fields_ok_spec in Hok. cbn. lia.
Qed.

Lemma rollover_weekday (c : datetime) :
  weekday (skip_weekends (datetime_add (replace_hm c 4 0) (timedelta_days 1))) <= 4.
Proof. apply skip_weekends_weekday, datetime_add_time_fields_ok. Qed.

Lemma datetime_ltb_spec (a b : datetime) :
  datetime_ltb a b = true <->
  ordinal a < ordinal b \/
  (ordinal a = ordinal b /\
   (hour a < hour b \/
    (hour a = hour b /\
     (minute a < minute b \/
      (minute a = minute b /\
       (second a < second b \/
        (second a = second b /\ microsecond a < microsecond b))))))).
Proof.
  unfold datetime_ltb, fields, lex_ltb.
  rewrite !orb_true_iff, !andb_true_iff, !orb_true_iff, !Z.ltb_lt, !Z.eqb_eq.
  intuition (try lia; try discriminate).
Qed.

(** The candidate is later than [now] and lies on a multiple of the
    interval. *)
Lemma next_interval_candidate_later (i : Z) (now : datetime) :
  In i preset_minutes -> time_fields_ok now = true ->
  datetime_ltb now (next_interval_candidate i now) = true /\
  ordinal now <= ordinal (next_interval_candidate i now) /\
  (hour (next_interval_candidate i now) * 60 +
   minute (next_interval_candidate i now)) mod i = 0.
Proof.
  intros Hi Hok.
  destruct (next_interval_minutes_bounds i now Hi Hok) as ((Hlo & Hhi) & Hmod).
  rewrite next_interval_candidate_eq. cbv zeta.
  set (m := next_interval_minutes i now) in *.
  apply time_fields_ok_spec in Hok.
  cbn [ordinal hour minute second microsecond].
  assert (Hcase : m = 1440 \/ m < 1440) by lia.
  destruct Hcase as [E | Hlt].
  - rewrite E. change (1440 / 1440) with 1. change (1440 mod 1440) with 0.
    change (0 / 60) with 0. change (0 mod 60) with 0.
    split; [ | split].
    + apply datetime_ltb_spec. cbn. lia.
    + lia.
    + apply Z.mod_0_l. apply preset_minutes_cases in Hi. lia.
  - rewrite (Z.div_small m 1440), (Z.mod_small m 1440), Z.add_0_r by lia.
    pose proof (Z.div_mod m 60 ltac:(lia)) as Hdm.
    pose proof (Z.mod_pos_bound m 60 ltac:(lia)) as Hmb.
    split; [ | split].
    + apply datetime_ltb_spec. cbn. lia.
    + lia.
    + replace (m / 60 * 60 + m mod 60) with m by lia. exact Hmod.
Qed.

Ltac valid_by_compute :=
  unfold valid_datetime; vm_compute; repeat split; (discriminate || reflexivity).

(** C1, as stated, fails: on Saturday 2024-01-06 at 10:00 with the 60
    minute preset the candidate 11:00 is before 20:00, no rollover takes
    place, and the result is Saturday 11:00. *)
Lemma get_next_interval_time_saturday :
  let now := datetime_of 2024 1 6 10 0 0 0 in
  In 60 preset_minutes /\ valid_datetime now /\
  get_next_interval_time 60 now = datetime_of 2024 1 6 11 0 0 0 /\
  weekday (get_next_interval_time 60 now) = 5.
Proof.
  cbv zeta. split; [cbn; tauto | ].
  split; [valid_by_compute | ].
  split; vm_compute; reflexivity.
Qed.

(** A candidate that reaches the next midnight has hour 0 and is returned
    as it is: Friday 2024-01-05 at 20:00 with the 240 minute preset gives
    Saturday 00:00. *)
Example get_next_interval_time_midnight :
  get_next_interval_time 240 (datetime_of 2024 1 5 20 0 0 0) =
  datetime_of 2024 1 6 0 0 0 0.
Proof. vm_compute. reflexivity. Qed.

(** The rollover from a Friday evening: 19:30 with the 60 minute preset
    gives Monday 04:00. *)
Example get_next_interval_time_friday_evening :
  get_next_interval_time 60 (datetime_of 2024 1 5 19 30 0 0) =
  datetime_of 2024 1 8 4 0 0 0.
Proof. vm_compute. reflexivity. Qed.

(** C1 (amended): for every preset interval and every valid [now], when the
    candidate's hour is 20 or later (the rollover branch) the result falls
    on a weekday, Monday to Friday; when the candidate's hour is below 20
    the result is the candidate itself and keeps the candidate's day; in
    particular, when [now] is on a weekday and the candidate falls on the
    day of [now], the result falls on a weekday. *)
Theorem get_next_interval_time_weekday (i : Z) (now : datetime) :
  In i preset_minutes -> valid_datetime now ->
  (20 <= hour (next_interval_candidate i now) ->
   0 <= weekday (get_next_interval_time i now) <= 4) /\
  (hour (next_interval_candidate i now) < 20 ->
   get_next_interval_time i now = next_interval_candidate i now) /\
  (weekday now <= 4 -> next_interval_minutes i now < 1440 ->
   0 <= weekday (get_next_interval_time i now) <= 4).
Proof.
  intros Hi Hv.
  assert (Hroll : 20 <= hour (next_interval_candidate i now) ->
                  0 <= weekday (get_next_interval_time i now) <= 4).
  { intros Hh. unfold get_next_interval_time. cbv zeta.
    apply Z.leb_le in Hh. rewrite Hh.
    split; [apply weekday_range | apply rollover_weekday]. }
  assert (Hkeep : hour (next_interval_candidate i now) < 20 ->
                  get_next_interval_time i now = next_interval_candidate i now).
  { intros Hh. unfold get_next_interval_time. cbv zeta.
    apply Z.leb_gt in Hh. rewrite Hh. reflexivity. }
  split; [exact Hroll | split; [exact Hkeep | ]].
  intros Hw Hm.
  destruct (Z_lt_dec (hour (next_interval_candidate i now)) 20) as [Hlt | Hge];
    [ | apply Hroll; lia].
  rewrite (Hkeep Hlt), next_interval_candidate_eq. cbv zeta.
  pose proof (valid_time_fields_ok now Hv) as Hok.
  destruct (next_interval_minutes_bounds i now Hi Hok) as ((Hlo & _) & _).
  apply time_fields_ok_spec in Hok.
  rewrite (Z.div_small (next_interval_minutes i now) 1440), Z.add_0_r by lia.
  unfold weekday in *. cbn [ordinal].
  split; [apply Z.mod_pos_bound; lia | exact Hw].
Qed.

Lemma get_next_interval_time_weekday_witness :
  let now := datetime_of 2024 1 5 19 30 0 0 in
  (20 <= hour (next_interval_candidate 60 now) ->
   0 <= weekday (get_next_interval_time 60 now) <= 4) /\
  (hour (next_interval_candidate 60 now) < 20 ->
   get_next_interval_time 60 now = next_interval_candidate 60 now) /\
  (weekday now <= 4 -> next_interval_minutes 60 now < 1440 ->
   0 <= weekday (get_next_interval_time 60 now) <= 4).
Proof.
  apply (get_next_interval_time_weekday 60 (datetime_of 2024 1 5 19 30 0 0)).
  - cbn. tauto.
  - valid_by_compute.
Defined.

(** C2: for every preset interval and every valid [now] the result is
    strictly later than [now], and either its minutes since its own local
    midnight are a multiple of the interval, or it was reached through the
    20:00 rollover and its hour is 4 on a weekday. *)
Theorem get_next_interval_time_later_aligned (i : Z) (now : datetime) :
  In i preset_minutes -> valid_datetime now ->
  datetime_ltb now (get_next_interval_time i now) = true /\
  ((hour (get_next_interval_time i now) * 60 +
    minute (get_next_interval_time i now)) mod i = 0 \/
   (20 <= hour (next_interval_candidate i now) /\
    hour (get_next_interval_time i now) = 4 /\
    0 <= weekday (get_next_interval_time i now) <= 4)).
Proof.
  intros Hi Hv. pose proof (valid_time_fields_ok now Hv) as Hok.
  destruct (next_interval_candidate_later i now Hi Hok) as (Hlt & Hord & Hmod).
  destruct (next_interval_candidate_fields i now) as (Hcok & Hcs & Hcu).
  unfold get_next_interval_time. cbv zeta.
  destruct (20 <=? hour (next_interval_candidate i now)) eqn:Hh.
  - apply Z.leb_le in Hh.
    pose proof (rollover_weekday (next_interval_candidate i now)) as Hw.
    rewrite rollover_eq in * by exact Hcok. cbv zeta in *.
    cbn [ordinal hour minute second microsecond].
    split.
    + apply datetime_ltb_spec. cbn [ordinal hour minute second microsecond].
      left.
      match goal with |- context [days_skipped ?d] =>
        pose proof (days_skipped_range d) end.
      lia.
    + right. split; [exact Hh | ]. split; [reflexivity | ].
      split; [apply weekday_range | exact Hw].
  - split; [exact Hlt | left; exact Hmod].
Qed.

Lemma get_next_interval_time_later_aligned_witness :
  let now := datetime_of 2024 1 5 19 30 0 0 in
  datetime_ltb now (get_next_interval_time 60 now) = true /\
  ((hour (get_next_interval_time 60 now) * 60 +
    minute (get_next_interval_time 60 now)) mod 60 = 0 \/
   (20 <= hour (next_interval_candidate 60 now) /\
    hour (get_next_interval_time 60 now) = 4 /\
    0 <= weekday (get_next_interval_time 60 now) <= 4)).
Proof.
  apply (get_next_interval_time_later_aligned 60 (datetime_of 2024 1 5 19 30 0 0)).
  - cbn. tauto.
  - valid_by_compute.
Defined.

(** C10: for every preset interval and every valid [now] the result has
    second 0 and microsecond 0, in the normal path and in the rollover
    path. *)
Theorem get_next_interval_time_whole_minute (i : Z) (now : datetime) :
  In i preset_minutes -> valid_datetime now ->
  second (get_next_interval_time i now) = 0 /\
  microsecond (get_next_interval_time i now) = 0.
Proof.
  intros _ _.
  destruct (next_interval_candidate_fields i now) as (Hcok & Hcs & Hcu).
  unfold get_next_interval_time. cbv zeta.
  destruct (20 <=? hour (next_interval_candidate i now)).
  - rewrite rollover_eq by exact Hcok. cbv zeta.
    cbn [second microsecond]. split; assumption.
  - split; assumption.
Qed.

Lemma get_next_interval_time_whole_minute_witness :
  let now := datetime_of 2024 1 5 19 59 59 999999 in
  second (get_next_interval_time 15 now) = 0 /\
  microsecond (get_next_interval_time 15 now) = 0.
Proof.
  apply (get_next_interval_time_whole_minute 15 (datetime_of 2024 1 5 19 59 59 999999)).
  - cbn. tauto.
  - valid_by_compute.
Defined.

(** ** Trading-calendar gate *)

(** C3: [is_trading_hours] is true exactly when the weekday is Monday to
    Friday (0 to 4) and the hour is in [4, 20); it is false on every weekend
    instant, true on a Wednesday at 04:00:00 and false on a Wednesday at
    20:00:00. *)
Theorem is_trading_hours_spec (now : datetime) :
  (is_trading_hours now = true <->
   (0 <= weekday now <= 4 /\ 4 <= hour now < 20)) /\
  (5 <= weekday now -> is_trading_hours now = false) /\
  (weekday now = 2 -> hour now = 4 -> is_trading_hours now = true) /\
  (weekday now = 2 -> hour now = 20 -> is_trading_hours now = false) /\
  weekday (datetime_of 2024 1 3 4 0 0 0) = 2 /\
  is_trading_hours (datetime_of 2024 1 3 4 0 0 0) = true /\
  is_trading_hours (datetime_of 2024 1 3 20 0 0 0) = false.
Proof.
  pose proof (weekday_range now) as Hr.
  unfold is_trading_hours.
  split; [ | split; [ | split; [ | split; [ | repeat split]]]].
  - destruct (4 <? weekday now) eqn:Hw.
    + apply Z.ltb_lt in Hw. split; [discriminate | lia].
    + apply Z.ltb_ge in Hw. rewrite andb_true_iff, Z.leb_le, Z.ltb_lt. lia.
  - intros Hw. assert (H : (4 <? weekday now) = true) by (apply Z.ltb_lt; lia).
    rewrite H. reflexivity.
  - intros -> ->. reflexivity.
  - intros -> ->. reflexivity.
Qed.

Lemma is_trading_hours_spec_witness :
  let now := datetime_of 2024 1 6 10 0 0 0 in
  5 <= weekday now /\ is_trading_hours now = false.
Proof.
  split.
  - vm_compute. discriminate.
  - refine (proj1 (proj2 (is_trading_hours_spec (datetime_of 2024 1 6 10 0 0 0))) _).
    vm_compute. discriminate.
Defined.

(** ** Quote cache *)

(** The world after one more reading of the clock. *)
Definition tick (w : World) : World :=
  mkWorld (_cache w) (config_file w) (S (clock_reads w)) (fetch_log w) (sent w).

(** The second half of [get_cached_stock]: fetch, and store a quote. *)
Definition fetch_and_store (env : Env) (k : string) (w : World) : option Quote * World :=
  match fetch_stock_data_raw env k (length (fetch_log w)) with
  | Some q =>
      (Some q,
       mkWorld (<[k := (q, time_time env (clock_reads w))]> (_cache w))
               (config_file w) (S (clock_reads w)) (fetch_log w ++ [k]) (sent w))
  | None =>
      (None,
       mkWorld (_cache w) (config_file w) (clock_reads w) (fetch_log w ++ [k]) (sent w))
  end.

Lemma get_cached_stock_eq (env : Env) (s : string) (w : World) :
  get_cached_stock env s w =
  match _cache w !! upper s with
  | Some (data, ts) =>
      if Qlt_le_dec (time_time env (clock_reads w) - ts) CACHE_TTL
      then (Some data, tick w)
      else fetch_and_store env (upper s) (tick w)
  | None => fetch_and_store env (upper s) w
  end.
Proof.
  unfold get_cached_stock, bind, cache_lookup, fetch_and_store, tick.
  destruct (_cache w !! upper s) as [[data ts] | ].
  - unfold read_time at 1. cbn [fst snd].
    destruct (Qlt_le_dec (time_time env (clock_reads w) - ts) CACHE_TTL).
    + reflexivity.
    + unfold ret, _fetch_stock_data_raw. cbn.
      destruct (fetch_stock_data_raw env (upper s) (length (fetch_log w))); reflexivity.
  - unfold ret, _fetch_stock_data_raw. cbn.
    destruct (fetch_stock_data_raw env (upper s) (length (fetch_log w))); reflexivity.
Qed.

Lemma upper_ascii_idempotent (c : ascii) : upper_ascii (upper_ascii c) = upper_ascii c.
Proof.
  destruct c as [[] [] [] [] [] [] [] []]; vm_compute; reflexivity.
Qed.

Lemma upper_idempotent (s : string) : upper (upper s) = upper s.
Proof.
  induction s as [ | c s IH]; cbn; [reflexivity | ].
  rewrite upper_ascii_idempotent, IH. reflexivity.
Qed.

(** A lookup changes no entry but the one of its own upper-cased symbol. *)
Lemma get_cached_stock_other_keys (env : Env) (s : string) (w : World) (k : string) :
  k <> upper s ->
  _cache (snd (get_cached_stock env s w)) !! k = _cache w !! k.
Proof.
  intros Hk. rewrite get_cached_stock_eq. unfold fetch_and_store, tick.
  destruct (_cache w !! upper s) as [[data ts] | ].
  - destruct (Qlt_le_dec _ _); [reflexivity | ].
    cbn [fetch_log clock_reads _cache].
    destruct (fetch_stock_data_raw env (upper s) _); cbn; [ | reflexivity].
    apply lookup_insert_ne. congruence.
  - destruct (fetch_stock_data_raw env (upper s) _); cbn; [ | reflexivity].
    apply lookup_insert_ne. congruence.
Qed.

(** An environment whose provider never answers, with a clock that stands
    still, and an empty world. *)
Definition env_no_data : Env :=
  mkEnv (fun _ => 0%Q)
        (fun _ => datetime_of 2024 1 3 10 0 0 0)
        (fun _ => datetime_of 2024 1 3 15 0 0 0)
        (fun _ _ => None)
        (fun c => Some c)
        (fun _ => "0.00"%string).

Definition empty_world : World := mkWorld ∅ None 0 [] [].



(** A provider that knows AAPL only, and a clock that advances by ten
    seconds from one reading to the next. *)
Definition sample_quote : Quote :=
  mkQuote "AAPL" 190%Q 1%Q (1 # 2)%Q (Some 200%Q) (Some 120%Q)
          (Some "5% off 52w high"%string) None None None None.

Definition env_aapl : Env :=
  mkEnv (fun n => inject_Z (10 * Z.of_nat n))
        (fun _ => datetime_of 2024 1 3 10 0 0 0)
        (fun _ => datetime_of 2024 1 3 15 0 0 0)
        (fun ticker _ => if String.eqb ticker "AAPL" then Some sample_quote else None)
        (fun c => Some c)
        (fun _ => "0.00"%string).


(** C5: [get_cached_stock] upper-cases its symbol before it reads and
    before it writes the cache.  The entry it reads is the one under
    [upper s]: when that entry is younger than 60 seconds its data is
    returned, with no fetch and no write, whatever else the cache holds;
    otherwise the provider is asked for [upper s] and a quote it answers is
    stored under [upper s].  No other entry is touched, the outcome depends
    on the cache through that one entry only, and every spelling with the
    same upper-case form is the same operation; aapl and AAPL meet in the
    entry AAPL. *)
Theorem get_cached_stock_case_insensitive (env : Env) (s : string) (w : World) :
  get_cached_stock env s w = get_cached_stock env (upper s) w /\
  (forall s2, upper s2 = upper s ->
     get_cached_stock env s2 w = get_cached_stock env s w) /\
  (forall data ts,
     _cache w !! upper s = Some (data, ts) ->
     (time_time env (clock_reads w) - ts < CACHE_TTL)%Q ->
     get_cached_stock env s w = (Some data, tick w)) /\
  ((forall data ts,
      _cache w !! upper s = Some (data, ts) ->
      (CACHE_TTL <= time_time env (clock_reads w) - ts)%Q) ->
   fst (get_cached_stock env s w) =
   fetch_stock_data_raw env (upper s) (length (fetch_log w)) /\
   fetch_log (snd (get_cached_stock env s w)) = fetch_log w ++ [upper s] /\
   (forall q, fst (get_cached_stock env s w) = Some q ->
      exists t, _cache (snd (get_cached_stock env s w)) =
                <[upper s := (q, t)]> (_cache w))) /\
  (forall k, k <> upper s ->
     _cache (snd (get_cached_stock env s w)) !! k = _cache w !! k) /\
  (forall w2,
     _cache w2 !! upper s = _cache w !! upper s ->
     clock_reads w2 = clock_reads w -> fetch_log w2 = fetch_log w ->
     fst (get_cached_stock env s w2) = fst (get_cached_stock env s w) /\
     fetch_log (snd (get_cached_stock env s w2)) =
     fetch_log (snd (get_cached_stock env s w)) /\
     _cache (snd (get_cached_stock env s w2)) !! upper s =
     _cache (snd (get_cached_stock env s w)) !! upper s) /\
  upper "aapl" = "AAPL"%string /\
  get_cached_stock env "aapl" w = get_cached_stock env "AAPL" w.
Proof.
  split; [rewrite !get_cached_stock_eq, upper_idempotent; reflexivity | ].
  split; [intros s2 E; rewrite !get_cached_stock_eq, E; reflexivity | ].
  split.
  { intros data ts He Hlt. rewrite get_cached_stock_eq, He.
    destruct (Qlt_le_dec _ _) as [_ | Hge]; [reflexivity | ].
    exfalso. exact (Qlt_not_le _ _ Hlt Hge). }
  split.
  { intros Hstale. rewrite get_cached_stock_eq. unfold fetch_and_store, tick.
    destruct (_cache w !! upper s) as [[data ts] | ] eqn:He.
    - specialize (Hstale data ts eq_refl).
      destruct (Qlt_le_dec _ _) as [Hlt | _];
        [exfalso; exact (Qlt_not_le _ _ Hlt Hstale) | ].
      cbn [fetch_log clock_reads _cache].
      destruct (fetch_stock_data_raw env (upper s) _); cbn.
      + repeat split. intros q0 [= <-]. eexists. reflexivity.
      + repeat split. intros q0 H. discriminate H.
    - destruct (fetch_stock_data_raw env (upper s) _); cbn.
      + repeat split. intros q0 [= <-]. eexists. reflexivity.
      + repeat split. intros q0 H. discriminate H. }
  split; [intros k Hk; apply get_cached_stock_other_keys; exact Hk | ].
  split.
  { intros w2 He Hc Hf. rewrite !get_cached_stock_eq, He.
    unfold fetch_and_store, tick. rewrite Hc, Hf.
    destruct (_cache w !! upper s) as [[data ts] | ] eqn:Hw.
    - destruct (Qlt_le_dec _ _) as [Hlt | Hge].
      + cbn. rewrite He, Hw. auto.
      + cbn [fetch_log clock_reads _cache].
        destruct (fetch_stock_data_raw env (upper s) _); cbn.
        * rewrite !lookup_insert_eq. auto.
        * rewrite He, Hw. auto.
    - destruct (fetch_stock_data_raw env (upper s) _); cbn.
      + rewrite !lookup_insert_eq. auto.
      + rewrite He, Hw. auto. }
  split; [reflexivity | ].
  rewrite !get_cached_stock_eq. reflexivity.
Qed.

(** AAPL is cached at time 0 beside an unrelated entry under the
    lower-case key; the clock of [env_aapl] reads 0. *)
Definition world_mixed_case : World :=
  mkWorld (<["aapl"%string := (mkQuote "other" 1%Q 0%Q 0%Q None None None None None
                                        None None, 0%Q)]>
             {[ "AAPL"%string := (sample_quote, 0%Q) ]})
          None 0 [] [].

Lemma get_cached_stock_case_insensitive_witness :
  get_cached_stock env_aapl "aapl" world_mixed_case =
  (Some sample_quote, tick world_mixed_case) /\
  _cache (snd (get_cached_stock env_aapl "aapl" world_mixed_case)) !! "MSFT"%string =
  _cache world_mixed_case !! "MSFT"%string.
Proof.
  split.
  - refine (proj1 (proj2 (proj2 (get_cached_stock_case_insensitive env_aapl "aapl"
                                   world_mixed_case)))
                  sample_quote 0%Q _ _).
    + vm_compute. reflexivity.
    + vm_compute. reflexivity.
  - refine (proj1 (proj2 (proj2 (proj2 (proj2
              (get_cached_stock_case_insensitive env_aapl "aapl" world_mixed_case)))))
            "MSFT"%string _).
    vm_compute. discriminate.
Defined.

(** Looking up aapl and then AAPL calls the provider once: the second
    lookup finds what the first stored. *)
Example get_cached_stock_aapl_then_AAPL :
  let (r1, w1) := get_cached_stock env_aapl "aapl" empty_world in
  let (r2, w2) := get_cached_stock env_aapl "AAPL" w1 in
  r1 = Some sample_quote /\ r2 = Some sample_quote /\
  fetch_log w2 = ["AAPL"%string].
Proof. vm_compute. repeat split; reflexivity. Qed.

(** C6: when the lookup has to fetch (no entry, or an entry of 60 seconds
    or more) and the fetch yields absence, the lookup returns absence and
    the cache is exactly what it was: no entry is created and the prior
    entry, expired or not, stays in place. *)
Theorem get_cached_stock_failed_fetch (env : Env) (s : string) (w : World) :
  (forall data ts,
     _cache w !! upper s = Some (data, ts) ->
     (CACHE_TTL <= time_time env (clock_reads w) - ts)%Q) ->
  fetch_stock_data_raw env (upper s) (length (fetch_log w)) = None ->
  fst (get_cached_stock env s w) = None /\
  _cache (snd (get_cached_stock env s w)) = _cache w /\
  _cache (snd (get_cached_stock env s w)) !! upper s = _cache w !! upper s /\
  fetch_log (snd (get_cached_stock env s w)) = fetch_log w ++ [upper s].
Proof.
  intros Hstale Hnone. rewrite get_cached_stock_eq.
  unfold fetch_and_store, tick.
  destruct (_cache w !! upper s) as [[data ts] | ] eqn:He.
  - specialize (Hstale data ts eq_refl).
    destruct (Qlt_le_dec _ _) as [Hlt | _].
    + exfalso. exact (Qlt_not_le _ _ Hlt Hstale).
    + cbn [fetch_log clock_reads _cache]. rewrite Hnone. cbn.
      rewrite He. auto.
  - rewrite Hnone. cbn. rewrite He. auto.
Qed.

(** A world whose cache holds an entry for AAPL stamped at time 0, read
    when the clock of [env_stale] shows 100. *)
Definition env_stale : Env :=
  mkEnv (fun _ => 100%Q)
        (fun _ => datetime_of 2024 1 3 10 0 0 0)
        (fun _ => datetime_of 2024 1 3 15 0 0 0)
        (fun _ _ => None)
        (fun c => Some c)
        (fun _ => "0.00"%string).

Definition world_with_aapl : World :=
  mkWorld {[ "AAPL"%string := (sample_quote, 0%Q) ]} None 0 [] [].

Lemma get_cached_stock_failed_fetch_witness :
  fst (get_cached_stock env_stale "aapl" world_with_aapl) = None /\
  _cache (snd (get_cached_stock env_stale "aapl" world_with_aapl)) =
  _cache world_with_aapl /\
  _cache (snd (get_cached_stock env_stale "aapl" world_with_aapl)) !! upper "aapl" =
  _cache world_with_aapl !! upper "aapl" /\
  fetch_log (snd (get_cached_stock env_stale "aapl" world_with_aapl)) =
  fetch_log world_with_aapl ++ [upper "aapl"].
Proof.
  apply (get_cached_stock_failed_fetch env_stale "aapl" world_with_aapl).
  - intros data ts H. vm_compute in H. injection H as <- <-.
    vm_compute. discriminate.
  - reflexivity.
Defined.

(** ** One update cycle *)

Lemma get_cached_stock_sent (env : Env) (s : string) (w : World) :
  sent (snd (get_cached_stock env s w)) = sent w.
Proof.
  rewrite get_cached_stock_eq. unfold fetch_and_store, tick.
  destruct (_cache w !! upper s) as [[data ts] | ].
  - destruct (Qlt_le_dec _ _); [reflexivity | ].
    destruct (fetch_stock_data_raw env (upper s) _); reflexivity.
  - destruct (fetch_stock_data_raw env (upper s) _); reflexivity.
Qed.

Lemma fetch_all_stocks_cons (env : Env) (t : string) (rest : list string) (w : World) :
  fetch_all_stocks env (t :: rest) w =
  (fst (get_cached_stock env t w) ::
   fst (fetch_all_stocks env rest (snd (get_cached_stock env t w))),
   snd (fetch_all_stocks env rest (snd (get_cached_stock env t w)))).
Proof.
  cbn [fetch_all_stocks]. unfold bind, get_stock_data, ret.
  destruct (get_cached_stock env t w) as [r w1]. cbn [fst snd].
  destruct (fetch_all_stocks env rest w1) as [rs w2]. reflexivity.
Qed.

(** The batch has one result per symbol and sends nothing. *)
Lemma fetch_all_stocks_spec (env : Env) (tickers : list string) (w : World) :
  length (fst (fetch_all_stocks env tickers w)) = length tickers /\
  sent (snd (fetch_all_stocks env tickers w)) = sent w.
Proof.
  revert w. induction tickers as [ | t rest IH]; intros w.
  - split; reflexivity.
  - rewrite fetch_all_stocks_cons. cbn [fst snd length].
    destruct (IH (snd (get_cached_stock env t w))) as (Hl & Hs).
    rewrite Hl, Hs, get_cached_stock_sent. split; reflexivity.
Qed.

(** A batch of absences renders no line. *)
Lemma stock_lines_all_absent (env : Env) (stocks_data : list (option Quote)) :
  Forall (eq None) stocks_data -> stock_lines env stocks_data = [].
Proof.
  induction 1 as [ | x l Hx _ IH]; [reflexivity | ].
  subst x. cbn. exact IH.
Qed.

Lemma create_stock_embed_all_absent (env : Env) (stocks_data : list (option Quote)) (w : World) :
  stocks_data <> [] -> Forall (eq None) stocks_data ->
  description (fst (create_stock_embed env stocks_data w)) = "No valid stock data."%string /\
  sent (snd (create_stock_embed env stocks_data w)) = sent w.
Proof.
  intros Hne Hall. unfold create_stock_embed, bind, read_now_ET, read_now_UTC, ret.
  destruct stocks_data as [ | x l]; [congruence | ].
  rewrite (stock_lines_all_absent env (x :: l) Hall). split; reflexivity.
Qed.

(** [run_scheduled_update] by cases. *)
Lemma run_scheduled_update_eq (env : Env) (w : World) :
  run_scheduled_update env w =
  let config := fst (load_config w) in
  if falsy_channel_id (channel_id config) || falsy_list (stocks config)
  then (Returned, w)
  else if negb (is_trading_hours (datetime_now_ET env (clock_reads w)))
  then (Returned, tick w)
  else
    match get_channel env (default 0 (channel_id config)) with
    | None => (Returned, tick w)
    | Some channel =>
        let batch := fetch_all_stocks env (stocks config) (tick w) in
        let built := create_stock_embed env (fst batch) (snd batch) in
        (AwaitingSend, snd (channel_send channel (fst built) (snd built)))
    end.
Proof.
  unfold run_scheduled_update, bind. cbv zeta.
  destruct (load_config w) as [config w0] eqn:Hload.
  assert (Hw0 : w0 = w) by (unfold load_config in Hload; congruence).
  subst w0. cbn [fst].
  destruct (falsy_channel_id (channel_id config) || falsy_list (stocks config));
    [reflexivity | ].
  unfold read_now_ET. fold (tick w).
  destruct (negb (is_trading_hours (datetime_now_ET env (clock_reads w))));
    [reflexivity | ].
  destruct (get_channel env (default 0 (channel_id config))) as [channel | ];
    [ | reflexivity].
  destruct (fetch_all_stocks env (stocks config) (tick w)) as [stocks_data w1].
  cbn [fst snd].
  destruct (create_stock_embed env stocks_data w1) as [embed w2].
  reflexivity.
Qed.

(** C7: one update cycle returns at once, with no fetch, no send and the
    cache untouched, when the loaded configuration has no channel id or an
    empty watch-list, or the clock is outside trading hours, or the channel
    cannot be resolved; in each case the function simply returns. *)
Theorem run_scheduled_update_gated (env : Env) (w : World) :
  let config := fst (load_config w) in
  channel_id config = None \/
  stocks config = [] \/
  is_trading_hours (datetime_now_ET env (clock_reads w)) = false \/
  (exists cid, channel_id config = Some cid /\ get_channel env cid = None) ->
  fst (run_scheduled_update env w) = Returned /\
  sent (snd (run_scheduled_update env w)) = sent w /\
  fetch_log (snd (run_scheduled_update env w)) = fetch_log w /\
  _cache (snd (run_scheduled_update env w)) = _cache w.
Proof.
  cbv zeta. intros Hgate. rewrite run_scheduled_update_eq. cbv zeta.
  set (config := fst (load_config w)) in *.
  destruct (falsy_channel_id (channel_id config) || falsy_list (stocks config)) eqn:Hf;
    [cbn; auto | ].
  apply orb_false_elim in Hf. destruct Hf as (Hc & Hs).
  destruct (is_trading_hours (datetime_now_ET env (clock_reads w))) eqn:Hth;
    cbn [negb]; [ | cbn; auto].
  destruct Hgate as [Hg | [Hg | [Hg | (cid & Hg & Hch)]]].
  - rewrite Hg in Hc. discriminate Hc.
  - rewrite Hg in Hs. discriminate Hs.
  - discriminate Hg.
  - rewrite Hg.
    change (get_channel env (default 0 (Some cid))) with (get_channel env cid).
    rewrite Hch. cbn. auto.
Qed.

Lemma run_scheduled_update_gated_witness :
  fst (run_scheduled_update env_aapl empty_world) = Returned /\
  sent (snd (run_scheduled_update env_aapl empty_world)) = sent empty_world /\
  fetch_log (snd (run_scheduled_update env_aapl empty_world)) = fetch_log empty_world /\
  _cache (snd (run_scheduled_update env_aapl empty_world)) = _cache empty_world.
Proof.
  apply (run_scheduled_update_gated env_aapl empty_world).
  left. reflexivity.
Defined.

(** C8: when the configuration has a channel id and a watch-list, the
    clock is inside trading hours, the channel resolves, and every entry of
    the fetched batch is an absence, the cycle still makes exactly one
    send, to that channel, of an embed whose description is
    No valid stock data. *)
Theorem run_scheduled_update_all_absent (env : Env) (w : World) (cid channel : Z) :
  let config := fst (load_config w) in
  channel_id config = Some cid -> cid <> 0 ->
  stocks config <> [] ->
  is_trading_hours (datetime_now_ET env (clock_reads w)) = true ->
  get_channel env cid = Some channel ->
  Forall (eq None) (fst (fetch_all_stocks env (stocks config) (tick w))) ->
  exists embed,
    fst (run_scheduled_update env w) = AwaitingSend /\
    sent (snd (run_scheduled_update env w)) = sent w ++ [(channel, embed)] /\
    description embed = "No valid stock data."%string.
Proof.
  cbv zeta. intros Hcid Hnz Hstocks Hth Hch Hall.
  rewrite run_scheduled_update_eq. cbv zeta.
  set (config := fst (load_config w)) in *.
  rewrite Hcid. cbn [falsy_channel_id].
  change (get_channel env (default 0 (Some cid))) with (get_channel env cid).
  assert (Hz : (cid =? 0) = false) by (apply Z.eqb_neq; exact Hnz).
  rewrite Hz.
  destruct (stocks config) as [ | t rest] eqn:Hst; [congruence | ].
  cbn [falsy_list orb]. rewrite Hth. cbn [negb]. rewrite Hch.
  destruct (fetch_all_stocks_spec env (t :: rest) (tick w)) as (Hl & Hs1).
  set (batch := fetch_all_stocks env (t :: rest) (tick w)) in *.
  assert (Hne : fst batch <> []).
  { intros E. rewrite E in Hl. discriminate Hl. }
  destruct (create_stock_embed_all_absent env (fst batch) (snd batch) Hne Hall)
    as (Hd & Hs2).
  exists (fst (create_stock_embed env (fst batch) (snd batch))).
  unfold channel_send. cbn [fst snd sent].
  rewrite Hs2, Hs1. auto.
Qed.

(** A world whose file names channel 42 and watches AAPL and MSFT. *)
Definition world_watching : World :=
  mkWorld ∅ (Some (mkConfigFile (Some (Some 42)) (Some ["AAPL"%string; "MSFT"%string])
                                (Some 60)))
          0 [] [].

Lemma run_scheduled_update_all_absent_witness :
  exists embed,
    fst (run_scheduled_update env_no_data world_watching) = AwaitingSend /\
    sent (snd (run_scheduled_update env_no_data world_watching)) =
    sent world_watching ++ [(42, embed)] /\
    description embed = "No valid stock data."%string.
Proof.
  apply (run_scheduled_update_all_absent env_no_data world_watching 42 42).
  - reflexivity.
  - discriminate.
  - discriminate.
  - vm_compute. reflexivity.
  - reflexivity.
  - vm_compute. repeat constructor.
Defined.

(** With the watch-list AAPL, MSFT and a provider that knows AAPL only,
    one cycle inside trading hours sends one embed to channel 42, with the
    line of AAPL and nothing for MSFT. *)
Example run_scheduled_update_one_send :
  let r := run_scheduled_update env_aapl world_watching in
  fst r = AwaitingSend /\
  map fst (sent (snd r)) = [42] /\
  map (fun m => description (snd m)) (sent (snd r)) =
  [("🟢 **AAPL** — $0.00" ++ newline ++
    "　　+$0.00 (+0.00%) · 5% off 52w high")%string] /\
  fetch_log (snd r) = ["AAPL"%string; "MSFT"%string].
Proof. vm_compute. repeat split; reflexivity. Qed.

(** ** Scheduler task *)

(** Every active task is the one the global [scheduled_task] names. *)
Definition only_handle_active (p : Process) : Prop :=
  forall (tid : nat) (t : Task),
    tasks p !! tid = Some t -> active t = true -> scheduled_task p = Some tid.

Lemma active_not_done (t : Task) : active t = true -> done t = false.
Proof. unfold active. destruct (done t); [discriminate | reflexivity]. Qed.

Lemma active_cancel (t : Task) : active (cancel t) = false.
Proof.
  unfold cancel, active. destruct (done t) eqn:Hd.
  - rewrite Hd. reflexivity.
  - unfold done in *. cbn. destruct (suspended_at t); reflexivity.
Qed.

(** A resumption with [CancelledError] ends the coroutine and touches
    nothing. *)
Lemma scheduled_update_loop_cancelled (env : Env) (ready : bool) (pt : point) (w : World) :
  scheduled_update_loop env ready pt ThrowsCancelled w = (Finished, w).
Proof. destruct pt; reflexivity. Qed.

Lemma start_scheduled_task_active (p : Process) (tid : nat) (t : Task) :
  only_handle_active p ->
  tasks (start_scheduled_task p) !! tid = Some t -> active t = true ->
  scheduled_task (start_scheduled_task p) = Some tid /\ tid = length (tasks p).
Proof.
  intros Hinv. unfold start_scheduled_task.
  set (tasks1 := match scheduled_task p with
                 | Some h =>
                     match tasks p !! h with
                     | Some th => if negb (done th) then <[h := cancel th]> (tasks p)
                                  else tasks p
                     | None => tasks p
                     end
                 | None => tasks p
                 end).
  cbn [tasks scheduled_task].
  assert (Hlen : length tasks1 = length (tasks p)).
  { subst tasks1. destruct (scheduled_task p) as [h | ]; [ | reflexivity].
    destruct (tasks p !! h) as [th | ]; [ | reflexivity].
    destruct (negb (done th)); [apply length_insert | reflexivity]. }
  assert (Hold : forall i ti, tasks1 !! i = Some ti -> active ti = false).
  { intros i ti Hi. destruct (active ti) eqn:Ha; [exfalso | reflexivity].
    subst tasks1. destruct (scheduled_task p) as [h | ] eqn:Hh.
    - destruct (tasks p !! h) as [th | ] eqn:Hth.
      + destruct (done th) eqn:Hd; cbn [negb] in Hi.
        * pose proof (Hinv i ti Hi Ha) as E. rewrite Hh in E. injection E as ->.
          rewrite Hth in Hi. injection Hi as ->.
          apply active_not_done in Ha. congruence.
        * destruct (decide (h = i)) as [-> | Hne].
          -- rewrite list_lookup_insert_eq in Hi by (eapply lookup_lt_Some; exact Hth).
             injection Hi as <-. rewrite active_cancel in Ha. discriminate Ha.
          -- rewrite list_lookup_insert_ne in Hi by exact Hne.
             pose proof (Hinv i ti Hi Ha) as E. congruence.
      + pose proof (Hinv i ti Hi Ha) as E. rewrite Hh in E. injection E as ->.
        congruence.
    - pose proof (Hinv i ti Hi Ha) as E. rewrite Hh in E. discriminate E. }
  intros Hl Ha.
  destruct (decide (tid < length tasks1)%nat) as [Hlt | Hge].
  - rewrite lookup_app_l in Hl by exact Hlt.
    rewrite (Hold tid t Hl) in Ha. discriminate Ha.
  - rewrite lookup_app_r in Hl by lia.
    destruct (tid - length tasks1)%nat as [ | n] eqn:Hn; [ | destruct n; discriminate Hl].
    assert (tid = length tasks1) by lia. subst tid. split; [reflexivity | exact Hlen].
Qed.

Lemma wake_active (env : Env) (p : Process) (tid : nat) (failed : bool) :
  only_handle_active p -> only_handle_active (wake env tid failed p).
Proof.
  intros Hinv. unfold wake.
  destruct (tasks p !! tid) as [t | ] eqn:Ht; [ | exact Hinv].
  destruct (done t) eqn:Hd; [exact Hinv | ].
  destruct (scheduled_update_loop env (ready p) (suspended_at t) _ (world p)) as [pt w1] eqn:Hr.
  intros i ti Hi Ha. cbn [tasks scheduled_task] in *.
  destruct (decide (tid = i)) as [-> | Hne].
  - destruct (must_cancel t) eqn:Hc.
    + rewrite scheduled_update_loop_cancelled in Hr. injection Hr as <- <-.
      rewrite list_lookup_insert_eq in Hi by (eapply lookup_lt_Some; exact Ht).
      injection Hi as <-. discriminate Ha.
    + apply (Hinv i t Ht). unfold active. rewrite Hd, Hc. reflexivity.
  - rewrite list_lookup_insert_ne in Hi by exact Hne. exact (Hinv i ti Hi Ha).
Qed.

Lemma step_active (env : Env) (p : Process) (e : event) :
  only_handle_active p -> only_handle_active (step env p e).
Proof.
  intros Hinv. destruct e as [ | tid failed | b | f | ticker]; cbn [step].
  - intros tid t Hl Ha.
    exact (proj1 (start_scheduled_task_active p tid t Hinv Hl Ha)).
  - apply wake_active. exact Hinv.
  - exact Hinv.
  - exact Hinv.
  - exact Hinv.
Qed.

Lemma run_active (env : Env) (w : World) (events : list event) :
  only_handle_active (run env w events).
Proof.
  unfold run.
  assert (H0 : only_handle_active (boot w)).
  { intros tid t Hl. cbn in Hl. rewrite lookup_nil in Hl. discriminate Hl. }
  revert H0. generalize (boot w).
  induction events as [ | e events IH]; intros p Hp; cbn [fold_left].
  - exact Hp.
  - apply IH, step_active, Hp.
Qed.

(** Waking a task that was asked to stop ends it and changes nothing in the
    world. *)
Lemma wake_cancelled (env : Env) (p : Process) (tid : nat) (t : Task) (failed : bool) :
  tasks p !! tid = Some t -> must_cancel t = true ->
  world (wake env tid failed p) = world p /\
  exists t', tasks (wake env tid failed p) !! tid = Some t' /\ done t' = true.
Proof.
  intros Ht Hc. unfold wake. rewrite Ht.
  destruct (done t) eqn:Hd.
  - split; [reflexivity | ]. exists t. split; assumption.
  - rewrite Hc, scheduled_update_loop_cancelled. cbn [world tasks]. split; [reflexivity | ].
    exists (mkTask Finished false). split; [ | reflexivity].
    apply list_lookup_insert_eq. eapply lookup_lt_Some. exact Ht.
Qed.

(** Only the waking of an active task can add to what has been sent. *)
Lemma step_sent (env : Env) (p : Process) (e : event) :
  sent (world (step env p e)) <> sent (world p) ->
  exists tid failed t,
    e = Wake tid failed /\ tasks p !! tid = Some t /\ active t = true.
Proof.
  destruct e as [ | tid failed | b | f | ticker]; cbn [step]; intros Hs.
  - exfalso. apply Hs. reflexivity.
  - exists tid, failed. unfold wake in Hs.
    destruct (tasks p !! tid) as [t | ] eqn:Ht; [ | exfalso; apply Hs; reflexivity].
    exists t. split; [reflexivity | ]. split; [reflexivity | ].
    destruct (done t) eqn:Hd; [exfalso; apply Hs; reflexivity | ].
    destruct (must_cancel t) eqn:Hc.
    + exfalso. apply Hs. rewrite scheduled_update_loop_cancelled. reflexivity.
    + unfold active. rewrite Hd, Hc. reflexivity.
  - exfalso. apply Hs. reflexivity.
  - exfalso. apply Hs. reflexivity.
  - exfalso. apply Hs. cbn [world]. unfold get_stock_data.
    apply get_cached_stock_sent.
Qed.

(** C9: after any course of events, at most one task is active (neither
    done nor asked to stop), and it is the one [scheduled_task] names;
    [start_scheduled_task] leaves the task it creates as the only active
    one, every earlier task being done or asked to stop; a task that was
    asked to stop ends at its next resumption without touching the world;
    and whatever is sent is sent by the resumption of the active task. *)
Theorem start_scheduled_task_single_instance
  (env : Env) (w : World) (events : list event) :
  let p := run env w events in
  (forall i j ti tj,
     tasks p !! i = Some ti -> tasks p !! j = Some tj ->
     active ti = true -> active tj = true -> i = j) /\
  (forall tid t,
     tasks (start_scheduled_task p) !! tid = Some t -> active t = true ->
     scheduled_task (start_scheduled_task p) = Some tid /\ tid = length (tasks p)) /\
  (forall tid t failed,
     tasks p !! tid = Some t -> must_cancel t = true ->
     world (wake env tid failed p) = world p /\
     exists t', tasks (wake env tid failed p) !! tid = Some t' /\ done t' = true) /\
  (forall e,
     sent (world (step env p e)) <> sent (world p) ->
     exists tid failed t,
       e = Wake tid failed /\ tasks p !! tid = Some t /\ active t = true /\
       scheduled_task p = Some tid).
Proof.
  cbv zeta. pose proof (run_active env w events) as Hinv.
  split; [ | split; [ | split]].
  - intros i j ti tj Hi Hj Hai Haj.
    pose proof (Hinv i ti Hi Hai) as Ei. pose proof (Hinv j tj Hj Haj) as Ej.
    congruence.
  - intros tid t. apply start_scheduled_task_active. exact Hinv.
  - intros tid t failed. apply wake_cancelled.
  - intros e Hs. destruct (step_sent env _ e Hs) as (tid & failed & t & -> & Ht & Ha).
    exists tid, failed, t. repeat split; try assumption.
    exact (Hinv tid t Ht Ha).
Qed.

(** A course of events: the client is ready, the loop is started, takes
    its first step and sleeps, wakes and posts, and is then restarted while
    it waits for the send to finish. *)
Definition restart_during_send : list event :=
  [SetReady true; CallStart; Wake 0 false; Wake 0 false; CallStart].

Example restart_during_send_state :
  let p := run env_no_data world_watching restart_during_send in
  tasks p = [mkTask AtSend true; mkTask NotStarted false] /\
  scheduled_task p = Some 1%nat /\
  length (sent (world p)) = 1%nat.
Proof. vm_compute. repeat split; reflexivity. Qed.

(** The superseded task ends at its next resumption; the new one goes to
    sleep, and nothing more has been sent. *)
Example restart_during_send_then_wake :
  let p := run env_no_data world_watching
               (restart_during_send ++ [Wake 0 false; Wake 1 false]) in
  tasks p = [mkTask Finished false; mkTask AtSleep false] /\
  length (sent (world p)) = 1%nat.
Proof. vm_compute. repeat split; reflexivity. Qed.

Lemma start_scheduled_task_single_instance_witness :
  let p := run env_no_data world_watching restart_during_send in
  tasks p !! 0%nat = Some (mkTask AtSend true) /\
  world (wake env_no_data 0 false p) = world p /\
  exists t', tasks (wake env_no_data 0 false p) !! 0%nat = Some t' /\ done t' = true.
Proof.
  split; [vm_compute; reflexivity | ].
  refine (proj1 (proj2 (proj2
            (start_scheduled_task_single_instance env_no_data world_watching
               restart_during_send)))
          0%nat (mkTask AtSend true) false _ _).
  - vm_compute. reflexivity.
  - reflexivity.
Defined.

(** * Further properties of the code *)

(** ** Interval aligner and market hours *)

(** [a <= b] on datetimes, by the same tuple comparison. *)
Fixpoint lex_leb (xs ys : list Z) : bool :=
  match xs, ys with
  | x :: xs', y :: ys' => (x <? y) || ((x =? y) && lex_leb xs' ys')
  | [], _ => true
  | _ :: _, [] => false
  end.

Definition datetime_leb (a b : datetime) : bool :=
  lex_leb (fields a) (fields b).

(** [is_regular_hours], with the reading of [datetime.now(ET)] as [now]. *)
Definition is_regular_hours (now : datetime) : bool :=
  let market_open := replace_hmsu now 9 30 0 0 in
  let market_close := replace_hmsu now 16 0 0 0 in
  datetime_leb market_open now && datetime_leb now market_close.

(** Microseconds since local midnight. *)
Definition microsecond_of_day (d : datetime) : Z :=
  ((hour d * 60 + minute d) * 60 + second d) * 1000000 + microsecond d.

Lemma datetime_leb_same_day (a b : datetime) :
  ordinal a = ordinal b ->
  0 <= minute a < 60 -> 0 <= second a < 60 -> 0 <= microsecond a < 1000000 ->
  0 <= minute b < 60 -> 0 <= second b < 60 -> 0 <= microsecond b < 1000000 ->
  (datetime_leb a b = true <-> microsecond_of_day a <= microsecond_of_day b).
Proof.
  intros Ho Hma Hsa Hua Hmb Hsb Hub.
  unfold datetime_leb, fields, lex_leb, microsecond_of_day.
  destruct (Z.ltb_spec (ordinal a) (ordinal b)); [lia | ].
  destruct (Z.eqb_spec (ordinal a) (ordinal b)); [ | lia].
  destruct (Z.ltb_spec (hour a) (hour b));
    [cbn; split; [intros _; nia | reflexivity] | ].
  destruct (Z.eqb_spec (hour a) (hour b));
    [ | cbn; split; [discriminate | intros; nia]].
  destruct (Z.ltb_spec (minute a) (minute b));
    [cbn; split; [intros _; nia | reflexivity] | ].
  destruct (Z.eqb_spec (minute a) (minute b));
    [ | cbn; split; [discriminate | intros; nia]].
  destruct (Z.ltb_spec (second a) (second b));
    [cbn; split; [intros _; nia | reflexivity] | ].
  destruct (Z.eqb_spec (second a) (second b));
    [ | cbn; split; [discriminate | intros; nia]].
  destruct (Z.ltb_spec (microsecond a) (microsecond b));
    [cbn; split; [intros _; nia | reflexivity] | ].
  destruct (Z.eqb_spec (microsecond a) (microsecond b));
    cbn; split; first [reflexivity | discriminate | intros; nia].
Qed.

(** X1: for every preset interval and every valid [now], the result of
    [get_next_interval_time] never lies at or after 20:00; when the rollover
    branch is taken the result is 04:00 and [is_trading_hours] accepts it;
    so the gate can reject a computed wake-up time only because it lies
    before 04:00 or on a weekend. *)
Theorem get_next_interval_time_gate (i : Z) (now : datetime) :
  In i preset_minutes -> valid_datetime now ->
  0 <= hour (get_next_interval_time i now) < 20 /\
  (20 <= hour (next_interval_candidate i now) ->
   hour (get_next_interval_time i now) = 4 /\
   minute (get_next_interval_time i now) = 0 /\
   is_trading_hours (get_next_interval_time i now) = true) /\
  (is_trading_hours (get_next_interval_time i now) = false ->
   hour (get_next_interval_time i now) < 4 \/
   4 < weekday (get_next_interval_time i now)).
Proof.
  intros Hi Hv.
  destruct (next_interval_candidate_fields i now) as (Hcok & _ & _).
  pose proof Hcok as Hc. apply time_fields_ok_spec in Hc.
  assert (Hroll : 20 <= hour (next_interval_candidate i now) ->
                  hour (get_next_interval_time i now) = 4 /\
                  minute (get_next_interval_time i now) = 0 /\
                  is_trading_hours (get_next_interval_time i now) = true).
  { intros Hh. pose proof (rollover_weekday (next_interval_candidate i now)) as Hw.
    unfold get_next_interval_time. cbv zeta.
    apply Z.leb_le in Hh. rewrite Hh.
    rewrite rollover_eq in * by exact Hcok. cbv zeta in *.
    split; [reflexivity | split; [reflexivity | ]].
    unfold is_trading_hours.
    apply Z.ltb_ge in Hw. rewrite Hw. reflexivity. }
  assert (Hrange : 0 <= hour (get_next_interval_time i now) < 20).
  { destruct (Z_le_dec 20 (hour (next_interval_candidate i now))) as [Hh | Hh].
    - destruct (Hroll Hh) as (-> & _). lia.
    - unfold get_next_interval_time. cbv zeta.
      assert (E : (20 <=? hour (next_interval_candidate i now)) = false)
        by (apply Z.leb_gt; lia).
      rewrite E. lia. }
  split; [exact Hrange | split; [exact Hroll | ]].
  unfold is_trading_hours.
  destruct (4 <? weekday (get_next_interval_time i now)) eqn:Hw.
  - intros _. right. apply Z.ltb_lt. exact Hw.
  - intros Hf. left. apply andb_false_iff in Hf.
    destruct Hf as [Hf | Hf]; [apply Z.leb_gt in Hf; lia | apply Z.ltb_ge in Hf; lia].
Qed.

Lemma get_next_interval_time_gate_witness :
  let now := datetime_of 2024 1 5 19 45 30 0 in
  0 <= hour (get_next_interval_time 15 now) < 20 /\
  (20 <= hour (next_interval_candidate 15 now) ->
   hour (get_next_interval_time 15 now) = 4 /\
   minute (get_next_interval_time 15 now) = 0 /\
   is_trading_hours (get_next_interval_time 15 now) = true) /\
  (is_trading_hours (get_next_interval_time 15 now) = false ->
   hour (get_next_interval_time 15 now) < 4 \/
   4 < weekday (get_next_interval_time 15 now)).
Proof.
  apply (get_next_interval_time_gate 15 (datetime_of 2024 1 5 19 45 30 0)).
  - cbn. tauto.
  - valid_by_compute.
Defined.

(** X2: for every preset interval and every valid [now], the candidate is
    the first interval boundary after [now]: its minutes since the midnight
    of [now] are a multiple of the interval, more than the minutes of [now]
    by at most one interval, and no multiple of the interval lies in
    between. *)
Theorem next_interval_candidate_first (i : Z) (now : datetime) :
  In i preset_minutes -> valid_datetime now ->
  let msm := hour now * 60 + minute now in
  let c := next_interval_candidate i now in
  let m := (ordinal c - ordinal now) * 1440 + hour c * 60 + minute c in
  msm < m <= msm + i /\ m mod i = 0 /\
  (forall k, msm < k * i -> m <= k * i).
Proof.
  intros Hi Hv. cbv zeta.
  pose proof (valid_time_fields_ok now Hv) as Hok.
  destruct (next_interval_minutes_bounds i now Hi Hok) as ((Hlo & Hhi) & Hmod).
  rewrite next_interval_candidate_eq. cbv zeta.
  cbn [ordinal hour minute].
  set (n := next_interval_minutes i now) in *.
  assert (En : (ordinal now + n / 1440 - ordinal now) * 1440 +
               n mod 1440 / 60 * 60 + n mod 1440 mod 60 = n).
  { pose proof (Z.div_mod n 1440 ltac:(lia)).
    pose proof (Z.div_mod (n mod 1440) 60 ltac:(lia)). lia. }
  rewrite En.
  assert (Hpos : 0 < i) by (apply preset_minutes_cases in Hi; lia).
  apply time_fields_ok_spec in Hok.
  set (msm := hour now * 60 + minute now) in *.
  assert (Hq : n = (msm / i + 1) * i) by reflexivity.
  pose proof (Z.div_mod msm i ltac:(lia)) as Hdm.
  pose proof (Z.mod_pos_bound msm i Hpos) as Hmb.
  split; [nia | split; [exact Hmod | ]].
  intros k Hk.
  assert (msm / i < k) by nia.
  nia.
Qed.

Lemma next_interval_candidate_first_witness :
  let now := datetime_of 2024 1 3 10 7 12 0 in
  let msm := hour now * 60 + minute now in
  let c := next_interval_candidate 30 now in
  let m := (ordinal c - ordinal now) * 1440 + hour c * 60 + minute c in
  msm < m <= msm + 30 /\ m mod 30 = 0 /\
  (forall k, msm < k * 30 -> m <= k * 30).
Proof.
  apply (next_interval_candidate_first 30 (datetime_of 2024 1 3 10 7 12 0)).
  - cbn. tauto.
  - valid_by_compute.
Defined.

(** X3: for every preset interval and every valid [now], when the rollover
    branch is taken the result lies on the first weekday after the day of
    [now]: one to three days later, with only Saturdays and Sundays in
    between. *)
Theorem get_next_interval_time_rollover_day (i : Z) (now : datetime) :
  In i preset_minutes -> valid_datetime now ->
  20 <= hour (next_interval_candidate i now) ->
  let r := get_next_interval_time i now in
  ordinal now + 1 <= ordinal r <= ordinal now + 3 /\
  weekday r <= 4 /\
  (forall day, ordinal now < day < ordinal r -> 4 < (day + 6) mod 7).
Proof.
  intros Hi Hv Hh. cbv zeta.
  pose proof (valid_time_fields_ok now Hv) as Hok.
  destruct (next_interval_minutes_bounds i now Hi Hok) as ((Hlo & Hhi) & _).
  destruct (next_interval_candidate_fields i now) as (Hcok & _ & _).
  pose proof (rollover_weekday (next_interval_candidate i now)) as Hw.
  assert (Hsame : ordinal (next_interval_candidate i now) = ordinal now).
  { revert Hh. rewrite next_interval_candidate_eq. cbv zeta.
    cbn [ordinal hour]. intros Hh.
    assert (Hn : next_interval_minutes i now < 1440).
    { destruct (Z.eq_dec (next_interval_minutes i now) 1440) as [E | ]; [ | lia].
      rewrite E in Hh. vm_compute in Hh. exfalso. apply Hh. reflexivity. }
    apply time_fields_ok_spec in Hok.
    rewrite Z.div_small by lia. lia. }
  unfold get_next_interval_time. cbv zeta.
  apply Z.leb_le in Hh. rewrite Hh.
  rewrite rollover_eq in * by exact Hcok. cbv zeta in *.
  cbn [ordinal] in *. rewrite Hsame in *.
  set (d := mkDatetime (ordinal now + 1) 4 0
                       (second (next_interval_candidate i now))
                       (microsecond (next_interval_candidate i now))) in *.
  pose proof (days_skipped_range d) as Hr.
  split; [lia | split; [exact Hw | ]].
  intros day Hday.
  unfold days_skipped in *. unfold weekday in *. subst d. cbn [ordinal] in *.
  destruct ((ordinal now + 1 + 6) mod 7 =? 5) eqn:E5.
  - apply Z.eqb_eq in E5.
    assert (Hc : day = ordinal now + 1 \/ day = ordinal now + 2) by lia.
    destruct Hc as [-> | ->]; [lia | ].
    replace (ordinal now + 2 + 6) with ((ordinal now + 1 + 6) + 1) by lia.
    rewrite Z.add_mod, E5 by lia. vm_compute. reflexivity.
  - destruct ((ordinal now + 1 + 6) mod 7 =? 6) eqn:E6.
    + apply Z.eqb_eq in E6. assert (day = ordinal now + 1) by lia. subst day. lia.
    + lia.
Qed.

Lemma get_next_interval_time_rollover_day_witness :
  let now := datetime_of 2024 1 5 19 30 0 0 in
  let r := get_next_interval_time 60 now in
  ordinal now + 1 <= ordinal r <= ordinal now + 3 /\
  weekday r <= 4 /\
  (forall day, ordinal now < day < ordinal r -> 4 < (day + 6) mod 7).
Proof.
  apply (get_next_interval_time_rollover_day 60 (datetime_of 2024 1 5 19 30 0 0)).
  - cbn. tauto.
  - valid_by_compute.
  - vm_compute. discriminate.
Defined.

(** X4: for a valid [now], [is_regular_hours] holds exactly from
    09:30:00.000000 to 16:00:00.000000 of the day, both ends included,
    whatever the date (no weekday is excluded); on Monday to Friday it
    implies [is_trading_hours]. *)
Theorem is_regular_hours_spec (now : datetime) :
  valid_datetime now ->
  (is_regular_hours now = true <->
   34200000000 <= microsecond_of_day now <= 57600000000) /\
  (forall o, is_regular_hours (mkDatetime o (hour now) (minute now) (second now)
                                          (microsecond now)) =
             is_regular_hours now) /\
  (is_regular_hours now = true -> weekday now <= 4 -> is_trading_hours now = true).
Proof.
  intros (Ho & Hh & Hm & Hs & Hu).
  assert (Hiff : is_regular_hours now = true <->
                 34200000000 <= microsecond_of_day now <= 57600000000).
  { unfold is_regular_hours. cbv zeta. rewrite andb_true_iff.
    rewrite (datetime_leb_same_day (replace_hmsu now 9 30 0 0) now)
      by (cbn; first [reflexivity | lia]).
    rewrite (datetime_leb_same_day now (replace_hmsu now 16 0 0 0))
      by (cbn; first [reflexivity | lia]).
    unfold microsecond_of_day, replace_hmsu. cbn [hour minute second microsecond].
    lia. }
  split; [exact Hiff | split].
  - intros o. unfold is_regular_hours, datetime_leb, fields, replace_hmsu.
    cbn [ordinal hour minute second microsecond lex_leb].
    rewrite !Z.ltb_irrefl, !Z.eqb_refl. reflexivity.
  - intros Hreg Hw. apply Hiff in Hreg. unfold microsecond_of_day in Hreg.
    unfold is_trading_hours.
    assert (E : (4 <? weekday now) = false) by (apply Z.ltb_ge; exact Hw).
    rewrite E. apply andb_true_iff. rewrite Z.leb_le, Z.ltb_lt. lia.
Qed.

Lemma is_regular_hours_spec_witness :
  let now := datetime_of 2024 1 3 16 0 0 0 in
  is_regular_hours now = true /\ is_trading_hours now = true.
Proof.
  pose proof (is_regular_hours_spec (datetime_of 2024 1 3 16 0 0 0)
                ltac:(valid_by_compute)) as (Hiff & _ & Himp).
  assert (H : is_regular_hours (datetime_of 2024 1 3 16 0 0 0) = true).
  { apply Hiff. vm_compute. split; discriminate. }
  split; [exact H | apply Himp; [exact H | vm_compute; discriminate]].
Defined.

(** ** Quote cache and batches *)

(** What a lookup leaves alone, and the most it does. *)
Lemma get_cached_stock_effects (env : Env) (s : string) (w : World) :
  let w' := snd (get_cached_stock env s w) in
  config_file w' = config_file w /\ sent w' = sent w /\
  (fetch_log w' = fetch_log w \/ fetch_log w' = fetch_log w ++ [upper s]) /\
  (clock_reads w <= clock_reads w' <= clock_reads w + 2)%nat.
Proof.
  cbv zeta. rewrite get_cached_stock_eq. unfold fetch_and_store, tick.
  destruct (_cache w !! upper s) as [[data ts] | ].
  - destruct (Qlt_le_dec _ _); [cbn; repeat split; auto; lia | ].
    cbn [fetch_log clock_reads _cache].
    destruct (fetch_stock_data_raw env (upper s) _); cbn; repeat split; auto; lia.
  - destruct (fetch_stock_data_raw env (upper s) _); cbn; repeat split; auto; lia.
Qed.

(** Every key of the cache is an upper-case symbol. *)
Definition keys_upper (c : gmap string (Quote * Q)) : Prop :=
  forall k v, c !! k = Some v -> upper k = k.

Lemma get_cached_stock_keys_upper (env : Env) (s : string) (w : World) :
  keys_upper (_cache w) -> keys_upper (_cache (snd (get_cached_stock env s w))).
Proof.
  intros Hk k v. destruct (decide (k = upper s)) as [-> | Hne].
  - intros _. apply upper_idempotent.
  - rewrite get_cached_stock_other_keys by exact Hne. apply Hk.
Qed.

(** X5: the cache only ever holds upper-case keys: the empty cache does,
    and a lookup and a batch of lookups keep it so; hence no symbol can
    have two entries that differ only by case. *)
Theorem cache_keys_upper (env : Env) (w : World) :
  keys_upper (_cache empty_world) /\
  (keys_upper (_cache w) ->
   (forall s, keys_upper (_cache (snd (get_cached_stock env s w)))) /\
   (forall tickers, keys_upper (_cache (snd (fetch_all_stocks env tickers w)))) /\
   (forall k1 k2 v1 v2,
      _cache w !! k1 = Some v1 -> _cache w !! k2 = Some v2 ->
      upper k1 = upper k2 -> k1 = k2)).
Proof.
  split.
  - intros k v H. cbn in H. rewrite lookup_empty in H. discriminate H.
  - intros Hk. split; [ | split].
    + intros s. apply get_cached_stock_keys_upper. exact Hk.
    + intros tickers. revert w Hk.
      induction tickers as [ | t rest IH]; intros w Hk; [exact Hk | ].
      rewrite fetch_all_stocks_cons. cbn [snd].
      apply IH, get_cached_stock_keys_upper, Hk.
    + intros k1 k2 v1 v2 H1 H2 E.
      rewrite <- (Hk k1 v1 H1), <- (Hk k2 v2 H2). exact E.
Qed.

Lemma cache_keys_upper_witness :
  keys_upper (_cache empty_world) /\
  keys_upper (_cache (snd (fetch_all_stocks env_aapl ["aapl"%string; "Msft"%string]
                                            empty_world))).
Proof.
  split.
  - exact (proj1 (cache_keys_upper env_aapl empty_world)).
  - exact (proj1 (proj2 (proj2 (cache_keys_upper env_aapl empty_world)
                                (proj1 (cache_keys_upper env_aapl empty_world))))
                 ["aapl"%string; "Msft"%string]).
Defined.

(** X6: a quote that [get_cached_stock] returns is the one the cache holds
    for the upper-cased symbol afterwards; absence is returned only after a
    fetch that yielded absence, and then the cache is as before. *)
Theorem get_cached_stock_result (env : Env) (s : string) (w : World) :
  let r := fst (get_cached_stock env s w) in
  let w' := snd (get_cached_stock env s w) in
  (forall q, r = Some q -> exists ts, _cache w' !! upper s = Some (q, ts)) /\
  (r = None ->
   fetch_log w' = fetch_log w ++ [upper s] /\
   fetch_stock_data_raw env (upper s) (length (fetch_log w)) = None /\
   _cache w' = _cache w).
Proof.
  cbv zeta. rewrite get_cached_stock_eq. unfold fetch_and_store, tick.
  destruct (_cache w !! upper s) as [[data ts] | ] eqn:He.
  - destruct (Qlt_le_dec _ _) as [Hlt | Hge].
    + cbn. split; [ | discriminate]. intros q [= <-]. exists ts. exact He.
    + cbn [fetch_log clock_reads _cache].
      destruct (fetch_stock_data_raw env (upper s) _) eqn:Hf; cbn.
      * split; [ | discriminate]. intros q' [= <-]. eexists. apply lookup_insert_eq.
      * split; [discriminate | auto].
  - destruct (fetch_stock_data_raw env (upper s) _) eqn:Hf; cbn.
    + split; [ | discriminate]. intros q' [= <-]. eexists. apply lookup_insert_eq.
    + split; [discriminate | auto].
Qed.

Lemma get_cached_stock_result_witness :
  exists ts,
    _cache (snd (get_cached_stock env_aapl "aapl" empty_world)) !! upper "aapl" =
    Some (sample_quote, ts).
Proof.
  refine (proj1 (get_cached_stock_result env_aapl "aapl" empty_world) sample_quote _).
  vm_compute. reflexivity.
Defined.

(** X7: [clear_cache] empties the cache and touches nothing else; the next
    lookup of any symbol goes to the provider and returns what it
    answers. *)
Theorem clear_cache_forces_fetch (env : Env) (s : string) (w : World) :
  let w' := snd (clear_cache w) in
  _cache w' = ∅ /\ config_file w' = config_file w /\
  clock_reads w' = clock_reads w /\ fetch_log w' = fetch_log w /\
  sent w' = sent w /\
  fst (get_cached_stock env s w') =
  fetch_stock_data_raw env (upper s) (length (fetch_log w)) /\
  fetch_log (snd (get_cached_stock env s w')) = fetch_log w ++ [upper s].
Proof.
  cbv zeta. unfold clear_cache. cbn [snd _cache config_file clock_reads fetch_log sent].
  repeat (split; [reflexivity | ]).
  rewrite get_cached_stock_eq. cbn [_cache]. rewrite lookup_empty.
  unfold fetch_and_store. cbn [fetch_log].
  destruct (fetch_stock_data_raw env (upper s) _); split; reflexivity.
Qed.

(** The symbols a batch hands to the provider. *)
Lemma fetch_all_stocks_log (env : Env) (tickers : list string) (w : World) :
  exists fetched,
    fetch_log (snd (fetch_all_stocks env tickers w)) = fetch_log w ++ fetched /\
    (length fetched <= length tickers)%nat /\
    Forall (fun x => exists t, In t tickers /\ x = upper t) fetched.
Proof.
  revert w. induction tickers as [ | t rest IH]; intros w.
  - exists []. cbn. rewrite app_nil_r. repeat split; [lia | constructor].
  - rewrite fetch_all_stocks_cons. cbn [snd].
    destruct (get_cached_stock_effects env t w) as (_ & _ & Hlog & _).
    destruct (IH (snd (get_cached_stock env t w))) as (fetched & Hf & Hlen & Hall).
    assert (Hall' : Forall (fun x => exists t0, In t0 (t :: rest) /\ x = upper t0) fetched).
    { eapply Forall_impl; [exact Hall | ]. intros x (t0 & Hin & ->).
      exists t0. split; [right; exact Hin | reflexivity]. }
    destruct Hlog as [Hlog | Hlog]; rewrite Hlog in Hf.
    + exists fetched. split; [exact Hf | split; [cbn; lia | exact Hall']].
    + exists (upper t :: fetched). rewrite <- app_assoc in Hf. cbn in Hf.
      split; [exact Hf | split; [cbn; lia | ]].
      constructor; [ | exact Hall']. exists t. split; [left; reflexivity | reflexivity].
Qed.

(** X8: [fetch_all_stocks] returns one result per ticker, in the order of
    the list (the batch of a concatenation is the concatenation of the
    batches, the second run on the world the first leaves); it calls the
    provider at most once per ticker, only for upper-cased tickers of the
    list, and neither sends nor rewrites the configuration. *)
Theorem fetch_all_stocks_order (env : Env) (l1 l2 : list string) (w : World) :
  let w1 := snd (fetch_all_stocks env l1 w) in
  length (fst (fetch_all_stocks env (l1 ++ l2) w)) = length (l1 ++ l2) /\
  fst (fetch_all_stocks env (l1 ++ l2) w) =
  fst (fetch_all_stocks env l1 w) ++ fst (fetch_all_stocks env l2 w1) /\
  snd (fetch_all_stocks env (l1 ++ l2) w) = snd (fetch_all_stocks env l2 w1) /\
  (exists fetched,
     fetch_log (snd (fetch_all_stocks env (l1 ++ l2) w)) = fetch_log w ++ fetched /\
     (length fetched <= length (l1 ++ l2))%nat /\
     Forall (fun x => exists t, In t (l1 ++ l2) /\ x = upper t) fetched) /\
  sent (snd (fetch_all_stocks env (l1 ++ l2) w)) = sent w.
Proof.
  cbv zeta.
  assert (Happ : forall l w0,
            fetch_all_stocks env (l ++ l2) w0 =
            (fst (fetch_all_stocks env l w0) ++
             fst (fetch_all_stocks env l2 (snd (fetch_all_stocks env l w0))),
             snd (fetch_all_stocks env l2 (snd (fetch_all_stocks env l w0))))).
  { induction l as [ | t rest IH]; intros w0.
    - cbn [app fetch_all_stocks ret fst snd].
      destruct (fetch_all_stocks env l2 w0); reflexivity.
    - change ((t :: rest) ++ l2) with (t :: (rest ++ l2)).
      rewrite !fetch_all_stocks_cons, IH. reflexivity. }
  split; [apply fetch_all_stocks_spec | ].
  split; [rewrite Happ; reflexivity | ].
  split; [rewrite Happ; reflexivity | ].
  split; [apply fetch_all_stocks_log | apply fetch_all_stocks_spec].
Qed.

(** ** Configuration file *)

(** [save_config]: the three keys of the dict are written to stocks.json
    (the write itself is taken to succeed). *)
Definition save_config (config : Config) : M unit :=
  fun w =>
    (tt, mkWorld (_cache w)
                 (Some (mkConfigFile (Some (channel_id config)) (Some (stocks config))
                                     (Some (interval_minutes config))))
                 (clock_reads w) (fetch_log w) (sent w)).

(** ** Building a quote *)

(** [get_52w_context]; the format specification [:.0f] is a parameter. *)
Definition get_52w_context (format_0f : Q -> string)
    (price year_high year_low : option Q) : option string :=
  match year_high, year_low, price with
  | Some year_high, Some year_low, Some price =>
      if Qeq_bool year_high 0 then None
      else
        let pct_off_high := (((year_high - price) / year_high) * 100)%Q in
        let pct_off_low :=
          if Qlt_le_dec 0 year_low
          then (((price - year_low) / year_low) * 100)%Q else 0%Q in
        if Qlt_le_dec pct_off_high 3 then Some "Near 52w high"%string
        else if Qlt_le_dec pct_off_low 3 then Some "Near 52w low"%string
        else Some (format_0f pct_off_high ++ "% off 52w high")%string
  | _, _, _ => None
  end.

(** X10: [get_52w_context] returns no text exactly when the price, the
    52-week high or the 52-week low is missing or the high is 0; a price
    equal to a nonzero high reads as near the high. *)
Theorem get_52w_context_none (format_0f : Q -> string)
    (price year_high year_low : option Q) :
  (get_52w_context format_0f price year_high year_low = None <->
   price = None \/ year_high = None \/ year_low = None \/
   exists h, year_high = Some h /\ (h == 0)%Q) /\
  (forall h l, ~ (h == 0)%Q ->
     get_52w_context format_0f (Some h) (Some h) (Some l) =
     Some "Near 52w high"%string).
Proof.
  split.
  - unfold get_52w_context.
    destruct year_high as [h | ]; [ | split; auto].
    destruct year_low as [l | ]; [ | split; auto].
    destruct price as [p | ]; [ | split; auto].
    destruct (Qeq_bool h 0) eqn:Hz.
    + apply Qeq_bool_iff in Hz. split; [ | reflexivity].
      intros _. right. right. right. exists h. split; [reflexivity | exact Hz].
    + split.
      * cbv zeta. destruct (Qlt_le_dec _ 3); [discriminate | ].
        destruct (Qlt_le_dec _ 3); discriminate.
      * intros [H | [H | [H | (h' & [= <-] & H)]]]; try discriminate.
        apply Qeq_bool_iff in H. congruence.
  - intros h l Hh. unfold get_52w_context.
    destruct (Qeq_bool h 0) eqn:Hz; [apply Qeq_bool_iff in Hz; contradiction | ].
    cbv zeta.
    destruct (Qlt_le_dec ((h - h) / h * 100) 3) as [_ | Hge]; [reflexivity | ].
    exfalso. apply (Qle_not_lt _ _ Hge).
    assert (E : ((h - h) / h * 100 == 0)%Q) by (field; exact Hh).
    rewrite E. reflexivity.
Qed.

Lemma get_52w_context_none_witness :
  get_52w_context (fun _ => "0"%string) (Some 200%Q) (Some 200%Q) (Some 120%Q) =
  Some "Near 52w high"%string.
Proof.
  refine (proj2 (get_52w_context_none (fun _ => "0"%string) None None None)
                200%Q 120%Q _).
  vm_compute. discriminate.
Defined.

(** X11: when the 52-week low is zero or negative its distance counts as
    0, so [get_52w_context] never gives the percentage text: the result is
    near the high or near the low. *)
Theorem get_52w_context_low_not_positive (format_0f : Q -> string) (p h l : Q) :
  (l <= 0)%Q -> ~ (h == 0)%Q ->
  get_52w_context format_0f (Some p) (Some h) (Some l) = Some "Near 52w high"%string \/
  get_52w_context format_0f (Some p) (Some h) (Some l) = Some "Near 52w low"%string.
Proof.
  intros Hl Hh. unfold get_52w_context.
  destruct (Qeq_bool h 0) eqn:Hz; [apply Qeq_bool_iff in Hz; contradiction | ].
  cbv zeta.
  destruct (Qlt_le_dec ((h - p) / h * 100) 3); [left; reflexivity | right].
  destruct (Qlt_le_dec 0 l) as [Hpos | _].
  - exfalso. exact (Qlt_not_le _ _ Hpos Hl).
  - destruct (Qlt_le_dec 0 3) as [_ | Hn]; [reflexivity | ].
    exfalso. revert Hn. vm_compute. intros Hn. apply Hn. reflexivity.
Qed.

Lemma get_52w_context_low_not_positive_witness :
  get_52w_context (fun _ => "50"%string) (Some 100%Q) (Some 200%Q) (Some 0%Q) =
  Some "Near 52w high"%string \/
  get_52w_context (fun _ => "50"%string) (Some 100%Q) (Some 200%Q) (Some 0%Q) =
  Some "Near 52w low"%string.
Proof.
  apply (get_52w_context_low_not_positive (fun _ => "50"%string) 100%Q 200%Q 0%Q).
  - vm_compute. discriminate.
  - vm_compute. discriminate.
Defined.

(** What [yf.Ticker(ticker)] answers: the [fast_info] attributes and the
    keys of [info] that [_fetch_stock_data_raw] reads. *)
Record Provider : Type := mkProvider {
  last_price : option Q;
  previous_close : option Q;
  year_high : option Q;
  year_low : option Q;
  preMarketPrice : option Q;
  postMarketPrice : option Q;
  marketCap : option Q;
  trailingPE : option Q
}.

(** The body of [_fetch_stock_data_raw]: [answer] is what the provider
    gives ([None]: the library raised), [clock1] the reading of the clock in
    [is_regular_hours()] and [clock2] the reading that follows it.  Every
    exception ends in [return None]; dividing by a previous close of 0
    raises [ZeroDivisionError]. *)
Definition fetch_stock_data_raw_body (format_0f : Q -> string) (ticker : string)
    (answer : option Provider) (clock1 clock2 : datetime) : option Quote :=
  match answer with
  | None => None
  | Some a =>
      match last_price a, previous_close a with
      | Some current_price, Some previous_close =>
          if Qeq_bool previous_close 0 then None
          else
            let change := (current_price - previous_close)%Q in
            let change_percent := ((change / previous_close) * 100)%Q in
            let extended :=
              if negb (is_regular_hours clock1) then
                if (hour clock2 <? 9) || ((hour clock2 =? 9) && (minute clock2 <? 30))
                then
                  if truthy_number (preMarketPrice a)
                  then (preMarketPrice a, Some "Pre"%string) else (None, None)
                else
                  if truthy_number (postMarketPrice a)
                  then (postMarketPrice a, Some "AH"%string) else (None, None)
              else (None, None) in
            Some (mkQuote (upper ticker) current_price change change_percent
                    (year_high a) (year_low a)
                    (get_52w_context format_0f (Some current_price)
                                     (year_high a) (year_low a))
                    (fst extended) (snd extended) (marketCap a) (trailingPE a))
      | _, _ => None
      end
  end.

(** X12: a quote built by [_fetch_stock_data_raw] carries the upper-cased
    ticker; its extended-hours price and label are set together or not at
    all, the price then being a nonzero number and the label Pre or AH;
    they are set only when [is_regular_hours] was false, and the label is
    Pre only when the clock read before 09:30.  No quote is built when the
    last price or the previous close is missing. *)
Theorem fetch_stock_data_raw_body_spec (format_0f : Q -> string) (ticker : string)
    (a : Provider) (clock1 clock2 : datetime) :
  (last_price a = None \/ previous_close a = None ->
   fetch_stock_data_raw_body format_0f ticker (Some a) clock1 clock2 = None) /\
  (forall q,
     fetch_stock_data_raw_body format_0f ticker (Some a) clock1 clock2 = Some q ->
     q_ticker q = upper ticker /\
     (q_extended_label q = None <-> q_extended_price q = None) /\
     (q_extended_label q <> None ->
      truthy_number (q_extended_price q) = true /\
      truthy_string (q_extended_label q) = true /\
      is_regular_hours clock1 = false /\
      (q_extended_label q = Some "Pre"%string \/ q_extended_label q = Some "AH"%string)) /\
     (q_extended_label q = Some "Pre"%string -> 0 <= minute clock2 < 60 ->
      hour clock2 * 60 + minute clock2 < 570)).
Proof.
  unfold fetch_stock_data_raw_body. split.
  - intros [H | H]; rewrite H; [reflexivity | ].
    destruct (last_price a); reflexivity.
  - intros q.
    destruct (last_price a) as [cp | ]; [ | discriminate].
    destruct (previous_close a) as [pc | ]; [ | discriminate].
    destruct (Qeq_bool pc 0); [discriminate | ].
    cbv zeta. intros [= <-]. cbn [q_ticker q_extended_label q_extended_price].
    split; [reflexivity | ].
    destruct (is_regular_hours clock1); cbn [negb fst snd].
    + split; [tauto | split; [congruence | discriminate]].
    + destruct ((hour clock2 <? 9) || ((hour clock2 =? 9) && (minute clock2 <? 30)))
        eqn:Hpre.
      * destruct (truthy_number (preMarketPrice a)) eqn:Ht; cbn [fst snd].
        -- split; [ | split].
           ++ destruct (preMarketPrice a); [ | discriminate Ht].
              split; discriminate.
           ++ intros _. repeat split; auto.
           ++ intros _ Hmin. apply orb_true_iff in Hpre.
              destruct Hpre as [Hh | Hh].
              ** apply Z.ltb_lt in Hh. lia.
              ** apply andb_true_iff in Hh. destruct Hh as (Hh & Hm).
                 apply Z.eqb_eq in Hh. apply Z.ltb_lt in Hm. lia.
        -- split; [tauto | split; [congruence | discriminate]].
      * destruct (truthy_number (postMarketPrice a)) eqn:Ht; cbn [fst snd].
        -- split; [ | split].
           ++ destruct (postMarketPrice a); [ | discriminate Ht].
              split; discriminate.
           ++ intros _. repeat split; auto.
           ++ discriminate.
        -- split; [tauto | split; [congruence | discriminate]].
Qed.

Definition provider_sample : Provider :=
  mkProvider (Some 190%Q) (Some 189%Q) (Some 200%Q) (Some 120%Q)
             (Some 191%Q) (Some 188%Q) None None.

Lemma fetch_stock_data_raw_body_spec_witness :
  exists q,
    fetch_stock_data_raw_body (fun _ => "0"%string) "aapl" (Some provider_sample)
      (datetime_of 2024 1 3 8 0 0 0) (datetime_of 2024 1 3 8 0 0 0) = Some q /\
    q_ticker q = "AAPL"%string /\
    (q_extended_label q = None <-> q_extended_price q = None).
Proof.
  destruct (fetch_stock_data_raw_body (fun _ => "0"%string) "aapl" (Some provider_sample)
              (datetime_of 2024 1 3 8 0 0 0) (datetime_of 2024 1 3 8 0 0 0))
    as [q | ] eqn:E; [ | vm_compute in E; discriminate E].
  exists q. split; [reflexivity | ].
  pose proof (proj2 (fetch_stock_data_raw_body_spec (fun _ => "0"%string) "aapl"
                       provider_sample
                       (datetime_of 2024 1 3 8 0 0 0) (datetime_of 2024 1 3 8 0 0 0))
                    q E) as (Ht & Hiff & _).
  split; [exact Ht | exact Hiff].
Defined.

(** A pre-market reading: the quote shows the pre-market price. *)
Example fetch_stock_data_raw_body_pre_market :
  let q := fetch_stock_data_raw_body (fun _ => "0"%string) "aapl"
             (Some provider_sample)
             (datetime_of 2024 1 3 8 0 0 0) (datetime_of 2024 1 3 8 0 0 0) in
  option_map q_ticker q = Some "AAPL"%string /\
  option_map q_extended_label q = Some (Some "Pre"%string) /\
  option_map q_extended_price q = Some (Some 191%Q).
Proof. vm_compute. repeat split; reflexivity. Qed.

(** ** Embed and update cycle *)

Lemma stock_lines_omap (env : Env) (stocks_data : list (option Quote)) :
  stock_lines env stocks_data = map (stock_line env) (omap id stocks_data).
Proof.
  induction stocks_data as [ | [q | ] rest IH]; cbn; [reflexivity | | exact IH].
  rewrite IH. reflexivity.
Qed.

Lemma create_stock_embed_eq (env : Env) (stocks_data : list (option Quote)) (w : World) :
  create_stock_embed env stocks_data w =
  (mkEmbed ("📈 Stock Update (" ++
            strftime_I_M_p_ET (datetime_now_ET env (clock_reads w)) ++ ")")%string
           (datetime_now_UTC env (S (clock_reads w))) Color_blue
           (match stocks_data with
            | [] => "No stock data available."%string
            | _ :: _ =>
                match stock_lines env stocks_data with
                | [] => "No valid stock data."%string
                | _ :: _ =>
                    String.concat (newline ++ newline) (stock_lines env stocks_data)
                end
            end),
   tick (tick w)).
Proof.
  unfold create_stock_embed, bind, read_now_ET, read_now_UTC, ret, tick.
  destruct stocks_data; reflexivity.
Qed.

(** X13: [create_stock_embed] renders one line per quote that is present,
    in the order of the batch, absences being dropped; the lines are
    separated by a blank line; an empty batch reads No stock data
    available, a batch of absences only reads No valid stock data.  The
    title carries the 12-hour clock time of the first of its two clock
    readings, and nothing is fetched or sent. *)
Theorem create_stock_embed_lines (env : Env) (stocks_data : list (option Quote))
    (w : World) :
  let e := fst (create_stock_embed env stocks_data w) in
  let w' := snd (create_stock_embed env stocks_data w) in
  (stocks_data = [] -> description e = "No stock data available."%string) /\
  (stocks_data <> [] -> omap id stocks_data = [] ->
   description e = "No valid stock data."%string) /\
  (forall q present, omap id stocks_data = q :: present ->
     description e =
     String.concat (newline ++ newline) (map (stock_line env) (q :: present))) /\
  title e = ("📈 Stock Update (" ++
             strftime_I_M_p_ET (datetime_now_ET env (clock_reads w)) ++ ")")%string /\
  timestamp e = datetime_now_UTC env (S (clock_reads w)) /\
  sent w' = sent w /\ fetch_log w' = fetch_log w /\ _cache w' = _cache w /\
  config_file w' = config_file w /\ clock_reads w' = S (S (clock_reads w)).
Proof.
  cbv zeta. rewrite create_stock_embed_eq, stock_lines_omap.
  cbn [fst snd title timestamp description tick sent fetch_log _cache
       config_file clock_reads].
  split; [intros ->; reflexivity | ].
  split.
  { intros Hne Ho. rewrite Ho. destruct stocks_data; [congruence | reflexivity]. }
  split.
  { intros q present Ho. rewrite Ho.
    destruct stocks_data; [discriminate Ho | reflexivity]. }
  repeat split; reflexivity.
Qed.

Lemma create_stock_embed_lines_witness :
  description (fst (create_stock_embed env_aapl [None; Some sample_quote] empty_world)) =
  String.concat (newline ++ newline) (map (stock_line env_aapl) [sample_quote]).
Proof.
  refine (proj1 (proj2 (proj2 (create_stock_embed_lines env_aapl
                                 [None; Some sample_quote] empty_world)))
                sample_quote [] _).
  reflexivity.
Defined.

Lemma fetch_all_stocks_config (env : Env) (tickers : list string) (w : World) :
  config_file (snd (fetch_all_stocks env tickers w)) = config_file w.
Proof.
  revert w. induction tickers as [ | t rest IH]; intros w; [reflexivity | ].
  rewrite fetch_all_stocks_cons. cbn [snd]. rewrite IH.
  apply (get_cached_stock_effects env t w).
Qed.

(** X14: when the configuration has a nonzero channel id and a watch-list,
    the clock is inside trading hours and the channel resolves, one cycle
    makes exactly one send, to that channel; the batch behind it has one
    entry per watched symbol, and the embed shows the quotes that are
    present in watch-list order. *)
Theorem run_scheduled_update_one_post (env : Env) (w : World) (cid channel : Z) :
  let config := fst (load_config w) in
  channel_id config = Some cid -> cid <> 0 ->
  stocks config <> [] ->
  is_trading_hours (datetime_now_ET env (clock_reads w)) = true ->
  get_channel env cid = Some channel ->
  let batch := fetch_all_stocks env (stocks config) (tick w) in
  let embed := fst (create_stock_embed env (fst batch) (snd batch)) in
  fst (run_scheduled_update env w) = AwaitingSend /\
  sent (snd (run_scheduled_update env w)) = sent w ++ [(channel, embed)] /\
  length (fst batch) = length (stocks config) /\
  description embed =
  match omap id (fst batch) with
  | [] => "No valid stock data."%string
  | q :: present =>
      String.concat (newline ++ newline) (map (stock_line env) (q :: present))
  end.
Proof.
  cbv zeta. intros Hcid Hnz Hstocks Hth Hch.
  rewrite run_scheduled_update_eq. cbv zeta.
  set (config := fst (load_config w)) in *.
  rewrite Hcid. cbn [falsy_channel_id].
  change (get_channel env (default 0 (Some cid))) with (get_channel env cid).
  assert (Hz : (cid =? 0) = false) by (apply Z.eqb_neq; exact Hnz).
  rewrite Hz.
  destruct (stocks config) as [ | t rest] eqn:Hst; [congruence | ].
  cbn [falsy_list orb]. rewrite Hth. cbn [negb]. rewrite Hch.
  destruct (fetch_all_stocks_spec env (t :: rest) (tick w)) as (Hl & Hs1).
  set (batch := fetch_all_stocks env (t :: rest) (tick w)) in *.
  assert (Hne : fst batch <> []).
  { intros E. rewrite E in Hl. discriminate Hl. }
  split; [reflexivity | ].
  rewrite create_stock_embed_eq, stock_lines_omap.
  split; [unfold channel_send; cbn [fst snd sent tick]; rewrite Hs1; reflexivity | ].
  split; [exact Hl | ].
  cbn [fst description].
  destruct (fst batch) as [ | x rest0]; [congruence | ].
  destruct (omap id (x :: rest0)); reflexivity.
Qed.

Lemma run_scheduled_update_one_post_witness :
  let batch := fetch_all_stocks env_aapl ["AAPL"%string; "MSFT"%string]
                                (tick world_watching) in
  let embed := fst (create_stock_embed env_aapl (fst batch) (snd batch)) in
  fst (run_scheduled_update env_aapl world_watching) = AwaitingSend /\
  sent (snd (run_scheduled_update env_aapl world_watching)) =
  sent world_watching ++ [(42, embed)] /\
  length (fst batch) = 2%nat /\
  description embed =
  match omap id (fst batch) with
  | [] => "No valid stock data."%string
  | q :: present =>
      String.concat (newline ++ newline) (map (stock_line env_aapl) (q :: present))
  end.
Proof.
  apply (run_scheduled_update_one_post env_aapl world_watching 42 42).
  - reflexivity.
  - discriminate.
  - discriminate.
  - vm_compute. reflexivity.
  - reflexivity.
Defined.

Lemma run_scheduled_update_at_most_one_aux (env : Env) (w : World) :
  (exists posted, sent (snd (run_scheduled_update env w)) = sent w ++ posted /\
                  (length posted <= 1)%nat) /\
  config_file (snd (run_scheduled_update env w)) = config_file w.
Proof.
  rewrite run_scheduled_update_eq. cbv zeta.
  assert (Hnil : exists posted : list (Z * Embed),
             sent w = sent w ++ posted /\ (length posted <= 1)%nat).
  { exists []. rewrite app_nil_r. split; [reflexivity | cbn; lia]. }
  destruct (falsy_channel_id _ || falsy_list _); [cbn; auto | ].
  destruct (negb _); [cbn; auto | ].
  destruct (get_channel env _) as [channel | ]; [ | cbn; auto].
  set (batch := fetch_all_stocks env _ (tick w)).
  rewrite create_stock_embed_eq.
  unfold channel_send. cbn [fst snd sent config_file tick].
  unfold batch. rewrite (proj2 (fetch_all_stocks_spec env _ (tick w))).
  rewrite fetch_all_stocks_config. cbn [tick sent config_file].
  split; [ | reflexivity].
  eexists. split; [reflexivity | cbn; lia].
Qed.

(** X15: whatever the configuration and the clock, one cycle adds at most
    one message to what has been sent, keeps the messages sent before, and
    never rewrites the configuration file. *)
Theorem run_scheduled_update_at_most_one (env : Env) (w : World) :
  let w' := snd (run_scheduled_update env w) in
  (exists posted, sent w' = sent w ++ posted /\ (length posted <= 1)%nat) /\
  config_file w' = config_file w /\
  (fst (run_scheduled_update env w) = Returned -> sent w' = sent w).
Proof.
  cbv zeta.
  destruct (run_scheduled_update_at_most_one_aux env w) as (Hposted & Hconfig).
  split; [exact Hposted | split; [exact Hconfig | ]].
  rewrite run_scheduled_update_eq. cbv zeta.
  destruct (falsy_channel_id _ || falsy_list _); [reflexivity | ].
  destruct (negb _); [reflexivity | ].
  destruct (get_channel env _); [discriminate | reflexivity].
Qed.

(** ** Scheduler loop *)

Lemma run_the_update_eq (env : Env) (w : World) :
  run_the_update env w =
  (match fst (run_scheduled_update env w) with
   | Returned => AtCooldown
   | AwaitingSend => AtSend
   end, snd (run_scheduled_update env w)).
Proof.
  unfold run_the_update, bind, ret.
  destruct (run_scheduled_update env w) as [[ | ] w1]; reflexivity.
Qed.

Lemma loop_head_eq (env : Env) (w : World) :
  loop_head env w =
  let config := fst (load_config w) in
  if interval_minutes config =? 0 then (Finished, tick w)
  else if datetime_ltb (datetime_now_ET env (S (clock_reads w)))
            (get_next_interval_time (interval_minutes config)
                                    (datetime_now_ET env (clock_reads w)))
  then (AtSleep, tick (tick w))
  else run_the_update env (tick (tick w)).
Proof.
  unfold loop_head, bind, ret, read_now_ET, tick. cbv zeta.
  destruct (load_config w) as [config w0] eqn:Hload.
  assert (Hw0 : w0 = w) by (unfold load_config in Hload; congruence).
  subst w0. cbn [fst snd clock_reads].
  destruct (interval_minutes config =? 0); [reflexivity | ].
  destruct (datetime_ltb _ _); reflexivity.
Qed.

(** One resumption: at most one message more, the file untouched. *)
Lemma scheduled_update_loop_effects (env : Env) (ready : bool) (pt : point)
    (r : resumption) (w : World) :
  let w' := snd (scheduled_update_loop env ready pt r w) in
  (exists posted, sent w' = sent w ++ posted /\ (length posted <= 1)%nat) /\
  config_file w' = config_file w.
Proof.
  cbv zeta.
  assert (Hnil : forall w0 : World, exists posted : list (Z * Embed),
             sent w0 = sent w0 ++ posted /\ (length posted <= 1)%nat).
  { intros w0. exists []. rewrite app_nil_r. split; [reflexivity | cbn; lia]. }
  assert (Hupd : forall w0,
            (exists posted, sent (snd (run_the_update env w0)) = sent w0 ++ posted /\
                            (length posted <= 1)%nat) /\
            config_file (snd (run_the_update env w0)) = config_file w0).
  { intros w0. rewrite run_the_update_eq. cbn [snd].
    destruct (run_scheduled_update_at_most_one_aux env w0) as (H1 & H2).
    split; assumption. }
  assert (Hhead : (exists posted, sent (snd (loop_head env w)) = sent w ++ posted /\
                                  (length posted <= 1)%nat) /\
                  config_file (snd (loop_head env w)) = config_file w).
  { rewrite loop_head_eq. cbv zeta.
    destruct (interval_minutes _ =? 0); [cbn; auto | ].
    destruct (datetime_ltb _ _); [cbn; auto | ].
    exact (Hupd (tick (tick w))). }
  destruct pt, r; cbn [scheduled_update_loop ret snd];
    try (split; [apply Hnil | reflexivity]);
    try exact Hhead; try exact (Hupd w);
    destruct ready; first [exact Hhead | split; [apply Hnil | reflexivity]].
Qed.

Definition is_wake (e : event) : bool :=
  match e with Wake _ _ => true | _ => false end.

Lemma step_posts (env : Env) (p : Process) (e : event) :
  (exists posted,
     sent (world (step env p e)) = sent (world p) ++ posted /\
     (length posted <= if is_wake e then 1 else 0)%nat).
Proof.
  assert (Hnil : exists posted : list (Z * Embed),
             sent (world p) = sent (world p) ++ posted /\ (length posted <= 0)%nat).
  { exists []. rewrite app_nil_r. split; [reflexivity | cbn; lia]. }
  destruct e as [ | tid failed | b | f | ticker]; cbn [step is_wake].
  - exact Hnil.
  - unfold wake.
    destruct (tasks p !! tid) as [t | ];
      [ | exists []; rewrite app_nil_r; split; [reflexivity | cbn; lia]].
    destruct (done t);
      [exists []; rewrite app_nil_r; split; [reflexivity | cbn; lia] | ].
    match goal with |- context [scheduled_update_loop env ?rd ?pt ?r ?w] =>
      pose proof (proj1 (scheduled_update_loop_effects env rd pt r w)) as H;
      destruct (scheduled_update_loop env rd pt r w) as [pt' w1] end.
    exact H.
  - exact Hnil.
  - exact Hnil.
  - cbn [world]. unfold get_stock_data. rewrite get_cached_stock_sent. exact Hnil.
Qed.

(** X16: over any course of events the messages sent are only ever added
    to, and their number grows by at most one for each resumption of a
    task; starting the loop, commands and configuration changes send
    nothing. *)
Theorem run_posts_bounded (env : Env) (w : World) (events : list event) :
  exists posted,
    sent (world (run env w events)) = sent w ++ posted /\
    (length posted <= length (filter (fun e => is_wake e = true) events))%nat.
Proof.
  unfold run.
  change (sent w) with (sent (world (boot w))).
  generalize (boot w). induction events as [ | e events IH]; intros p.
  - exists []. rewrite app_nil_r. split; [reflexivity | cbn; lia].
  - cbn [fold_left].
    destruct (IH (step env p e)) as (posted2 & H2 & L2).
    destruct (step_posts env p e) as (posted1 & H1 & L1).
    exists (posted1 ++ posted2). rewrite H2, H1, <- app_assoc.
    split; [reflexivity | ].
    rewrite length_app.
    destruct e; cbn [is_wake] in *;
      rewrite ?filter_cons_True, ?filter_cons_False by (cbn; congruence);
      cbn [length]; lia.
Qed.

(** X17: a task that was not asked to stop is not ended at its send or at
    its sleep.  A task waiting in [channel.send] goes to its five second
    pause whether the send returns or raises an [Exception], and sends
    nothing more; a task whose sleep has ended runs the update inside the
    [try] and is left waiting in the send or in the pause. *)
Theorem wake_keeps_running (env : Env) (p : Process) (tid : nat) (t : Task)
    (failed : bool) :
  tasks p !! tid = Some t -> must_cancel t = false ->
  (suspended_at t = AtSend ->
   tasks (wake env tid failed p) !! tid = Some (mkTask AtCooldown false) /\
   world (wake env tid failed p) = world p) /\
  (suspended_at t = AtSleep -> failed = false ->
   tasks (wake env tid failed p) !! tid = Some (mkTask AtCooldown false) \/
   tasks (wake env tid failed p) !! tid = Some (mkTask AtSend false)).
Proof.
  intros Ht Hc.
  assert (Hlt : (tid < length (tasks p))%nat) by (eapply lookup_lt_Some; exact Ht).
  split.
  - intros Hs. unfold wake. rewrite Ht. unfold done. rewrite Hs, Hc.
    destruct failed; cbn [scheduled_update_loop ret tasks world];
      (split; [apply list_lookup_insert_eq; exact Hlt | reflexivity]).
  - intros Hs ->. unfold wake. rewrite Ht. unfold done. rewrite Hs, Hc.
    cbn [scheduled_update_loop]. rewrite run_the_update_eq.
    cbn [tasks].
    destruct (fst (run_scheduled_update env (world p)));
      [left | right]; apply list_lookup_insert_eq; exact Hlt.
Qed.

Lemma wake_keeps_running_witness :
  let p := run env_no_data world_watching
               [SetReady true; CallStart; Wake 0 false; Wake 0 false] in
  tasks (wake env_no_data 0 true p) !! 0%nat = Some (mkTask AtCooldown false) /\
  world (wake env_no_data 0 true p) = world p.
Proof.
  refine (proj1 (wake_keeps_running env_no_data
                   (run env_no_data world_watching
                        [SetReady true; CallStart; Wake 0 false; Wake 0 false])
                   0%nat (mkTask AtSend false) true _ _) _).
  - vm_compute. reflexivity.
  - reflexivity.
  - reflexivity.
Defined.

(** ** Commands that change the configuration

    A handler runs in one piece from one [await] to the next.  In
    [setchannel], [removestock] and [setinterval] every [await ctx.send(...)]
    comes after the last access to stocks.json, so each is one step.
    [addstock] awaits [ctx.send] between its [load_config] and its
    [save_config]: it is kept in two parts, and anything may run between
    them.  The value of a handler is the list of the messages it sends to
    the channel of the command, in order. *)

(** [str.lower()] on ASCII. *)
Definition lower_ascii (c : ascii) : ascii :=
  let n := nat_of_ascii c in
  if ((65 <=? n) && (n <=? 90))%nat then ascii_of_nat (n + 32) else c.

Fixpoint lower (s : string) : string :=
  match s with
  | EmptyString => EmptyString
  | String c s' => String (lower_ascii c) (lower s')
  end.

(** [x in l] on a list of strings. *)
Definition list_mem (x : string) (l : list string) : bool :=
  existsb (String.eqb x) l.

(** [l.remove(x)] for an [x] that is in [l]: the first occurrence goes. *)
Fixpoint list_remove (x : string) (l : list string) : list string :=
  match l with
  | [] => []
  | y :: rest => if String.eqb x y then rest else y :: list_remove x rest
  end.

(** [not ticker] for an optional command argument: missing or empty. *)
Definition falsy_argument (a : option string) : bool :=
  match a with Some s => String.eqb s "" | None => true end.

(** [INTERVAL_PRESETS[preset]], when [preset in INTERVAL_PRESETS]. *)
Fixpoint preset_lookup (preset : string) (l : list (string * Z)) : option Z :=
  match l with
  | [] => None
  | (k, v) :: rest => if String.eqb preset k then Some v else preset_lookup preset rest
  end.

Definition with_channel_id (config : Config) (c : option Z) : Config :=
  mkConfig c (stocks config) (interval_minutes config).

Definition with_stocks (config : Config) (l : list string) : Config :=
  mkConfig (channel_id config) l (interval_minutes config).

Definition with_interval_minutes (config : Config) (m : Z) : Config :=
  mkConfig (channel_id config) (stocks config) m.

Section Commands.

Variable env : Env.

(** [setchannel], in a channel with the given id and name. *)
Definition setchannel (ctx_channel_id : Z) (ctx_channel_name : string)
    : M (list string) :=
  do config <- load_config;
  exec save_config (with_channel_id config (Some ctx_channel_id));
  ret [("✅ Stock updates will be posted to **#" ++ ctx_channel_name ++ "**")%string].

(** How far [addstock] gets before it suspends with stocks.json still to
    be written: it has returned, or it waits in
    [await ctx.send("Checking ...")] holding its upper-cased ticker and the
    dict it loaded. *)
Inductive addstock_progress : Type :=
| AddstockReturned
| AddstockAwaitingSend (ticker : string) (config : Config).

(** [addstock], up to that await. *)
Definition addstock (ticker : option string) : M (list string * addstock_progress) :=
  if falsy_argument ticker
  then ret (["❌ Please provide a ticker symbol. Example: `!addstock AAPL`"%string],
            AddstockReturned)
  else
    let ticker := upper (default "" ticker) in
    do config <- load_config;
    if list_mem ticker (stocks config)
    then ret ([("⚠️ **" ++ ticker ++ "** is already in the watch list.")%string],
              AddstockReturned)
    else ret ([("🔍 Checking **" ++ ticker ++ "**...")%string],
              AddstockAwaitingSend ticker config).

(** [addstock], from that await to its end: the lookup, and the write of
    the dict loaded before the await with the ticker appended. *)
Definition addstock_resumed (ticker : string) (config : Config) : M (list string) :=
  do data <- get_stock_data env ticker;
  match data with
  | None =>
      ret [("❌ Could not find stock data for **" ++ ticker ++
            "**. Please check the ticker symbol.")%string]
  | Some data =>
      exec save_config (with_stocks config (stocks config ++ [ticker]));
      ret [("✅ Added **" ++ ticker ++ "** to the watch list. Current price: $" ++
            format_2f env (q_price data))%string]
  end.

(** [removestock]. *)
Definition removestock (ticker : option string) : M (list string) :=
  if falsy_argument ticker then ret ["❌ Please provide a ticker symbol. Example: `!removestock AAPL`"%string]
  else
    let ticker := upper (default "" ticker) in
    do config <- load_config;
    if negb (list_mem ticker (stocks config)) then ret [("⚠️ **" ++ ticker ++ "** is not in the watch list.")%string]
    else
      exec save_config (with_stocks config (list_remove ticker (stocks config)));
      ret [("✅ Removed **" ++ ticker ++ "** from the watch list.")%string].

(** The keys of [INTERVAL_PRESETS], each in backquotes, joined by commas. *)
Definition presets_str : string :=
  String.concat ", " (map (fun p => ("`" ++ fst p ++ "`")%string) INTERVAL_PRESETS).

(** [setinterval]: the configuration is saved, the scheduler task is
    restarted, and then the clock is read for the reply. *)
Definition setinterval (preset : option string) (p : Process)
    : list string * Process :=
  match (if falsy_argument preset then None
         else preset_lookup (lower (default "" preset)) INTERVAL_PRESETS) with
  | None => ([("❌ Please provide a valid interval: " ++ presets_str)%string], p)
  | Some minutes =>
      let preset := lower (default "" preset) in
      let config := fst (load_config (world p)) in
      let w1 := snd (save_config (with_interval_minutes config minutes) (world p)) in
      let p1 := start_scheduled_task
                  (mkProcess w1 (tasks p) (scheduled_task p) (ready p)) in
      let (clock, w2) := read_now_ET env (world p1) in
      let next_time := get_next_interval_time minutes clock in
      let next_time_str := strftime_I_M_p_ET next_time in
      ([("✅ Update interval changed to **" ++ preset ++ "**." ++ newline ++ "Next update at " ++ next_time_str ++ ".")%string],
       mkProcess w2 (tasks p1) (scheduled_task p1) (ready p1))
  end.

End Commands.

Lemma list_mem_In (x : string) (l : list string) :
  list_mem x l = true <-> In x l.
Proof.
  unfold list_mem. rewrite existsb_exists. split.
  - intros (y & Hy & E). apply String.eqb_eq in E. subst y. exact Hy.
  - intros H. exists x. split; [exact H | apply String.eqb_refl].
Qed.

Lemma list_mem_false (x : string) (l : list string) :
  list_mem x l = false <-> ~ In x l.
Proof.
  rewrite <- list_mem_In. destruct (list_mem x l); split; congruence.
Qed.

Lemma list_remove_In (x y : string) (l : list string) :
  In y (list_remove x l) -> In y l.
Proof.
  induction l as [ | z rest IH]; cbn; [tauto | ].
  destruct (String.eqb x z); cbn; tauto.
Qed.

Lemma list_remove_other (x y : string) (l : list string) :
  y <> x -> In y l -> In y (list_remove x l).
Proof.
  intros Hne. induction l as [ | z rest IH]; cbn; [tauto | ].
  destruct (String.eqb_spec x z) as [<- | Hz]; cbn; [ | tauto].
  intros [E | H]; [congruence | exact H].
Qed.

Lemma list_remove_NoDup (x : string) (l : list string) :
  List.NoDup l -> List.NoDup (list_remove x l) /\ ~ In x (list_remove x l).
Proof.
  induction 1 as [ | z rest Hz Hnd IH]; cbn; [split; [constructor | tauto] | ].
  destruct (String.eqb_spec x z) as [<- | Hne].
  - split; assumption.
  - destruct IH as (IH1 & IH2). split.
    + constructor; [ | exact IH1]. intros H. apply Hz. eapply list_remove_In, H.
    + cbn. intros [E | H]; [congruence | contradiction].
Qed.

Lemma list_remove_last (x : string) (l : list string) :
  ~ In x l -> list_remove x (l ++ [x]) = l.
Proof.
  induction l as [ | z rest IH]; cbn; intros Hn.
  - rewrite String.eqb_refl. reflexivity.
  - destruct (String.eqb_spec x z) as [E | _]; [exfalso; apply Hn; left; congruence | ].
    rewrite IH by tauto. reflexivity.
Qed.

Lemma load_config_save_config (config : Config) (w : World) :
  fst (load_config (snd (save_config config w))) = config.
Proof. destruct config. reflexivity. Qed.

(** What [load_config] returns depends on the file only. *)
Lemma load_config_file (w1 w2 : World) :
  config_file w1 = config_file w2 -> fst (load_config w1) = fst (load_config w2).
Proof. unfold load_config. cbn. intros ->. reflexivity. Qed.

(** The first part of [addstock] by cases. *)
Lemma addstock_eq (ticker : option string) (w : World) :
  snd (addstock ticker w) = w /\
  snd (fst (addstock ticker w)) =
  if falsy_argument ticker then AddstockReturned
  else if list_mem (upper (default "" ticker)) (stocks (fst (load_config w)))
       then AddstockReturned
       else AddstockAwaitingSend (upper (default "" ticker)) (fst (load_config w)).
Proof.
  unfold addstock.
  destruct (falsy_argument ticker); [split; reflexivity | ].
  unfold bind. destruct (load_config w) as [config w0] eqn:Hload.
  assert (Hw0 : w0 = w) by (unfold load_config in Hload; congruence).
  subst w0. cbn [fst].
  destruct (list_mem _ (stocks config)); split; reflexivity.
Qed.

(** The second part of [addstock] by cases. *)
Lemma addstock_resumed_eq (env : Env) (ticker : string) (config : Config) (w : World) :
  snd (addstock_resumed env ticker config w) =
  match fst (get_cached_stock env ticker w) with
  | None => snd (get_cached_stock env ticker w)
  | Some _ =>
      snd (save_config (with_stocks config (stocks config ++ [ticker]))
                       (snd (get_cached_stock env ticker w)))
  end.
Proof.
  unfold addstock_resumed, bind, get_stock_data.
  destruct (get_cached_stock env ticker w) as [[q | ] w1]; reflexivity.
Qed.

Lemma NoDup_snoc (l : list string) (x : string) :
  List.NoDup l -> ~ In x l -> List.NoDup (l ++ [x]).
Proof.
  intros Hnd Hn. apply NoDup_ListNoDup, NoDup_app.
  split; [apply NoDup_ListNoDup; exact Hnd | ].
  split; [ | apply NoDup_singleton].
  intros y Hy Hy'. apply list_elem_of_In in Hy.
  apply list_elem_of_singleton in Hy'. subst y. contradiction.
Qed.

(** X18: [addstock] writes nothing before its await, and suspends there
    only with the upper-cased form of a ticker that is not in the
    watch-list it loaded.  When it is resumed, in whatever world [w1] the
    bot is by then, it sends nothing to the update channel; if the lookup
    returns no quote the file is left alone, otherwise the file becomes the
    configuration loaded before the await with the ticker appended, so
    that anything written in between is overwritten; the list it writes
    has no duplicate when the list it loaded had none. *)
Theorem addstock_watch_list (env : Env) (ticker : option string) (w w1 : World) :
  snd (addstock ticker w) = w /\
  (snd (fst (addstock ticker w)) = AddstockReturned ->
   falsy_argument ticker = true \/
   In (upper (default "" ticker)) (stocks (fst (load_config w)))) /\
  (forall T c,
     snd (fst (addstock ticker w)) = AddstockAwaitingSend T c ->
     (exists t, ticker = Some t /\ t <> ""%string /\ T = upper t) /\
     c = fst (load_config w) /\ ~ In T (stocks c) /\
     let w2 := snd (addstock_resumed env T c w1) in
     sent w2 = sent w1 /\
     (fst (get_cached_stock env T w1) = None -> config_file w2 = config_file w1) /\
     (fst (get_cached_stock env T w1) <> None ->
      fst (load_config w2) = with_stocks c (stocks c ++ [T])) /\
     (List.NoDup (stocks c) -> config_file w2 <> config_file w1 ->
      List.NoDup (stocks (fst (load_config w2))))).
Proof.
  destruct (addstock_eq ticker w) as (Hw & Hp).
  split; [exact Hw | ]. rewrite Hp.
  destruct (falsy_argument ticker) eqn:Hf.
  { split; [auto | ]. intros T c H. discriminate H. }
  destruct ticker as [t | ]; [ | discriminate Hf].
  cbn [falsy_argument] in Hf. change (default ""%string (Some t)) with t.
  destruct (list_mem (upper t) (stocks (fst (load_config w)))) eqn:Hm.
  { apply list_mem_In in Hm. split; [auto | ]. intros T c H. discriminate H. }
  apply list_mem_false in Hm.
  split; [discriminate | ].
  intros T c [= <- <-].
  split; [exists t; split; [reflexivity | split; [intros ->; discriminate Hf | reflexivity]] | ].
  split; [reflexivity | split; [exact Hm | ]].
  cbv zeta. rewrite addstock_resumed_eq.
  destruct (get_cached_stock_effects env (upper t) w1) as (Hc & Hs & _).
  destruct (fst (get_cached_stock env (upper t) w1)) as [q | ].
  - rewrite load_config_save_config.
    unfold save_config. cbn [snd sent with_stocks stocks].
    split; [exact Hs | ]. split; [discriminate | ]. split; [reflexivity | ].
    intros Hnd _. apply NoDup_snoc; assumption.
  - split; [exact Hs | ]. split; [intros _; exact Hc | ].
    split; [congruence | ]. intros _ Hneq. contradiction.
Qed.

Lemma addstock_watch_list_witness :
  fst (load_config (snd (addstock_resumed env_aapl "AAPL" defaults world_with_aapl))) =
  with_stocks defaults (stocks defaults ++ ["AAPL"%string]).
Proof.
  pose proof (proj2 (proj2 (addstock_watch_list env_aapl (Some "aapl"%string)
                              empty_world world_with_aapl))
                    "AAPL"%string defaults eq_refl) as (_ & _ & _ & H).
  cbv zeta in H. destruct H as (_ & _ & H & _).
  apply H. vm_compute. discriminate.
Defined.

(** An [addstock] that is resumed after a [setinterval] writes back the
    interval it had loaded: the 15 minutes are lost. *)
Example addstock_overwrites_interval :
  let started := addstock (Some "aapl"%string) empty_world in
  let p := snd (setinterval env_aapl (Some "15m"%string) (boot (snd started))) in
  snd (fst started) = AddstockAwaitingSend "AAPL" defaults /\
  fst (load_config (world p)) = mkConfig None [] 15 /\
  fst (load_config (snd (addstock_resumed env_aapl "AAPL" defaults (world p)))) =
  mkConfig None ["AAPL"%string] 60.
Proof. vm_compute. repeat split; reflexivity. Qed.

(** [removestock] by cases. *)
Lemma removestock_eq (ticker : option string) (w : World) :
  let config := fst (load_config w) in
  let t := upper (default "" ticker) in
  snd (removestock ticker w) =
  if falsy_argument ticker then w
  else if negb (list_mem t (stocks config)) then w
  else snd (save_config (with_stocks config (list_remove t (stocks config))) w).
Proof.
  cbv zeta. unfold removestock.
  destruct (falsy_argument ticker); [reflexivity | ].
  unfold bind. destruct (load_config w) as [config w0] eqn:Hload.
  assert (Hw0 : w0 = w) by (unfold load_config in Hload; congruence).
  subst w0. cbn [fst].
  destruct (negb (list_mem _ (stocks config))); reflexivity.
Qed.

(** X19: [removestock] of a ticker that is missing, empty or not in the
    watch-list changes nothing at all; otherwise the first occurrence of
    the upper-cased ticker leaves the list and every other symbol stays.
    In a list without duplicates the ticker is gone afterwards.  Nothing is
    fetched, and the channel and interval are kept. *)
Theorem removestock_watch_list (ticker : option string) (w : World) :
  let before := fst (load_config w) in
  let w' := snd (removestock ticker w) in
  let after := fst (load_config w') in
  let t := upper (default "" ticker) in
  (falsy_argument ticker = true \/ ~ In t (stocks before) -> w' = w) /\
  (falsy_argument ticker = false -> In t (stocks before) ->
   stocks after = list_remove t (stocks before) /\
   S (length (stocks after)) = length (stocks before)) /\
  (forall x, x <> t -> (In x (stocks after) <-> In x (stocks before))) /\
  (falsy_argument ticker = false -> List.NoDup (stocks before) ->
   List.NoDup (stocks after) /\ ~ In t (stocks after)) /\
  channel_id after = channel_id before /\
  interval_minutes after = interval_minutes before /\
  fetch_log w' = fetch_log w /\ _cache w' = _cache w /\ sent w' = sent w.
Proof.
  cbv zeta. rewrite removestock_eq. cbv zeta.
  set (before := fst (load_config w)).
  set (t := upper (default ""%string ticker)).
  destruct (falsy_argument ticker) eqn:Hf.
  { split; [reflexivity | ]. split; [discriminate | ].
    split; [reflexivity | ]. split; [discriminate | ]. repeat split; reflexivity. }
  destruct (list_mem t (stocks before)) eqn:Hm; cbn [negb].
  - apply list_mem_In in Hm. rewrite load_config_save_config.
    unfold save_config. cbn [snd with_stocks stocks channel_id interval_minutes
                             fetch_log _cache sent].
    split; [intros [H | H]; [discriminate H | contradiction] | ].
    split.
    { intros _ _. split; [reflexivity | ].
      clear - Hm. induction (stocks before) as [ | z rest IH]; [destruct Hm | ].
      cbn. destruct (String.eqb_spec t z) as [E | Hne]; [reflexivity | ].
      cbn. f_equal. apply IH. destruct Hm as [E | H]; [congruence | exact H]. }
    split.
    { intros x Hx. split; [apply list_remove_In | apply list_remove_other; exact Hx]. }
    split; [intros _ Hnd; apply list_remove_NoDup; exact Hnd | ].
    repeat split; reflexivity.
  - apply list_mem_false in Hm.
    split; [reflexivity | ]. split; [intros _ H; contradiction | ].
    split; [reflexivity | ].
    split; [intros _ Hnd; split; [exact Hnd | exact Hm] | ].
    repeat split; reflexivity.
Qed.

Definition world_two_stocks : World :=
  mkWorld ∅ (Some (mkConfigFile (Some (Some 42)) (Some ["AAPL"%string; "MSFT"%string])
                                (Some 30)))
          0 [] [].

Lemma removestock_watch_list_witness :
  stocks (fst (load_config (snd (removestock (Some "aapl"%string) world_two_stocks)))) =
  list_remove "AAPL" ["AAPL"%string; "MSFT"%string] /\
  S (length (stocks (fst (load_config (snd (removestock (Some "aapl"%string)
                                                        world_two_stocks)))))) =
  length ["AAPL"%string; "MSFT"%string].
Proof.
  refine (proj1 (proj2 (removestock_watch_list (Some "aapl"%string) world_two_stocks))
                _ _).
  - reflexivity.
  - left. reflexivity.
Defined.

(** X20: [removestock] undoes [addstock]: when [addstock] has suspended
    with a ticker and, once resumed, found a quote for it, the watch-list
    is the one it had loaded with the ticker appended, and [removestock] of
    that ticker, in any letter case, restores the whole configuration
    there was when [addstock] began. *)
Theorem addstock_removestock (env : Env) (t s : string) (w w1 : World)
    (T : string) (c : Config) :
  snd (fst (addstock (Some t) w)) = AddstockAwaitingSend T c ->
  fst (get_cached_stock env T w1) <> None ->
  s <> ""%string -> upper s = upper t ->
  let w2 := snd (addstock_resumed env T c w1) in
  stocks (fst (load_config w2)) = stocks (fst (load_config w)) ++ [upper t] /\
  fst (load_config (snd (removestock (Some s) w2))) = fst (load_config w).
Proof.
  intros Hp Hq Hs Hu. cbv zeta.
  rewrite (proj2 (addstock_eq (Some t) w)) in Hp.
  cbn [falsy_argument] in Hp. change (default ""%string (Some t)) with t in Hp.
  remember (fst (load_config w)) as before eqn:Hbefore.
  destruct (String.eqb t ""); [discriminate Hp | ].
  destruct (list_mem (upper t) (stocks before)) eqn:Hm; [discriminate Hp | ].
  injection Hp as <- <-. apply list_mem_false in Hm.
  assert (Hafter : fst (load_config (snd (addstock_resumed env (upper t) before w1))) =
                   with_stocks before (stocks before ++ [upper t])).
  { rewrite addstock_resumed_eq.
    destruct (fst (get_cached_stock env (upper t) w1)); [ | congruence].
    apply load_config_save_config. }
  split; [rewrite Hafter; reflexivity | ].
  rewrite removestock_eq. cbv zeta.
  cbn [falsy_argument]. change (default ""%string (Some s)) with s.
  assert (E : String.eqb s "" = false) by (apply String.eqb_neq; exact Hs).
  rewrite E, Hu, Hafter. cbn [with_stocks stocks].
  assert (Hin : list_mem (upper t) (stocks before ++ [upper t]) = true).
  { apply list_mem_In. apply in_or_app. right. left. reflexivity. }
  rewrite Hin. cbn [negb]. rewrite load_config_save_config.
  cbn [with_stocks stocks channel_id interval_minutes].
  rewrite list_remove_last by exact Hm.
  destruct before; reflexivity.
Qed.

Lemma addstock_removestock_witness :
  let w2 := snd (addstock_resumed env_aapl "AAPL" defaults empty_world) in
  stocks (fst (load_config w2)) = stocks (fst (load_config empty_world)) ++ [upper "aapl"] /\
  fst (load_config (snd (removestock (Some "Aapl"%string) w2))) =
  fst (load_config empty_world).
Proof.
  apply (addstock_removestock env_aapl "aapl" "Aapl" empty_world empty_world
           "AAPL" defaults).
  - reflexivity.
  - vm_compute. discriminate.
  - discriminate.
  - reflexivity.
Defined.

(** ** Interval command and the process as a whole *)

Lemma preset_lookup_In (preset : string) (m : Z) :
  preset_lookup preset INTERVAL_PRESETS = Some m -> In m preset_minutes.
Proof.
  unfold INTERVAL_PRESETS, preset_minutes. cbn.
  repeat (destruct (String.eqb preset _); [intros [= <-]; tauto | ]).
  discriminate.
Qed.

(** X21: [setinterval] with a missing argument or a word that is not one of
    15m, 30m, 1h, 2h, 4h (in any letter case) changes nothing.  With a
    preset it stores that preset's minutes, keeps channel and watch-list,
    sends nothing to the update channel and restarts the scheduler: the
    task it creates is the only active one. *)
Theorem setinterval_spec (env : Env) (preset : option string) (p : Process) :
  let chosen := if falsy_argument preset then None
                else preset_lookup (lower (default "" preset)) INTERVAL_PRESETS in
  let p' := snd (setinterval env preset p) in
  (chosen = None -> p' = p) /\
  (forall minutes, chosen = Some minutes ->
     In minutes preset_minutes /\
     fst (load_config (world p')) =
     with_interval_minutes (fst (load_config (world p))) minutes /\
     sent (world p') = sent (world p) /\
     scheduled_task p' = Some (length (tasks p)) /\
     tasks p' !! length (tasks p) = Some (mkTask NotStarted false) /\
     (only_handle_active p ->
      forall tid t, tasks p' !! tid = Some t -> active t = true ->
                    tid = length (tasks p))).
Proof.
  cbv zeta. unfold setinterval.
  destruct (if falsy_argument preset then None
            else preset_lookup (lower (default ""%string preset)) INTERVAL_PRESETS)
    as [m | ] eqn:Hchosen.
  - split; [discriminate | ]. intros minutes [= <-].
    split.
    { destruct (falsy_argument preset); [discriminate Hchosen | ].
      eapply preset_lookup_In, Hchosen. }
    set (config := fst (load_config (world p))).
    set (w1 := snd (save_config (with_interval_minutes config m) (world p))).
    set (p0 := mkProcess w1 (tasks p) (scheduled_task p) (ready p)).
    unfold read_now_ET. cbn [snd world tasks scheduled_task].
    assert (Hlen : forall q : Process,
              scheduled_task (start_scheduled_task q) = Some (length (tasks q)) /\
              tasks (start_scheduled_task q) !! length (tasks q) =
              Some (mkTask NotStarted false)).
    { intros q. unfold start_scheduled_task. cbn [scheduled_task tasks].
      set (tasks1 := match scheduled_task q with
                     | Some h =>
                         match tasks q !! h with
                         | Some th => if negb (done th) then <[h := cancel th]> (tasks q)
                                      else tasks q
                         | None => tasks q
                         end
                     | None => tasks q
                     end).
      assert (E : length tasks1 = length (tasks q)).
      { subst tasks1. destruct (scheduled_task q) as [h | ]; [ | reflexivity].
        destruct (tasks q !! h) as [th | ]; [ | reflexivity].
        destruct (negb (done th)); [apply length_insert | reflexivity]. }
      rewrite E. split; [reflexivity | ].
      rewrite lookup_app_r by lia. rewrite E, Nat.sub_diag. reflexivity. }
    assert (Hw : world (start_scheduled_task p0) = w1) by reflexivity.
    rewrite Hw. cbn [sent].
    split.
    { rewrite <- (load_config_save_config (with_interval_minutes config m) (world p)).
      apply load_config_file. reflexivity. }
    split; [reflexivity | ].
    destruct (Hlen p0) as (H1 & H2).
    split; [exact H1 | split; [exact H2 | ]].
    intros Hinv tid t Hl Ha.
    assert (Hinv0 : only_handle_active p0) by exact Hinv.
    exact (proj2 (start_scheduled_task_active p0 tid t Hinv0 Hl Ha)).
  - split; [reflexivity | discriminate].
Qed.

Lemma setinterval_spec_witness :
  fst (load_config (world (snd (setinterval env_aapl (Some "4H"%string)
                                            (boot world_two_stocks))))) =
  with_interval_minutes (fst (load_config world_two_stocks)) 240.
Proof.
  refine (proj1 (proj2 (proj2 (setinterval_spec env_aapl (Some "4H"%string)
                                 (boot world_two_stocks))
                              240 _))).
  reflexivity.
Defined.

Example setinterval_rejects :
  snd (setinterval env_aapl (Some "45m"%string) (boot world_two_stocks)) =
  boot world_two_stocks /\
  snd (setinterval env_aapl None (boot world_two_stocks)) = boot world_two_stocks.
Proof. split; reflexivity. Qed.

(** The commands that write stocks.json. *)
Inductive command : Type :=
| Setchannel (ctx_channel_id : Z) (ctx_channel_name : string)
| Addstock (ticker : option string)
| Removestock (ticker : option string)
| Setinterval (preset : option string).

(** The bot: the process, and the [addstock] handlers that wait in their
    first [await ctx.send], each with its ticker and the dict it loaded. *)
Record Bot : Type := mkBot {
  process : Process;
  awaiting_addstock : list (string * Config)
}.

Definition with_world (p : Process) (w : World) : Process :=
  mkProcess w (tasks p) (scheduled_task p) (ready p).

(** A command arrives and its handler runs to its end, or for [addstock]
    to its await. *)
Definition handle (env : Env) (c : command) (b : Bot) : list string * Bot :=
  match c with
  | Setchannel i n =>
      let (replies, w) := setchannel i n (world (process b)) in
      (replies, mkBot (with_world (process b) w) (awaiting_addstock b))
  | Addstock t =>
      let (result, w) := addstock t (world (process b)) in
      (fst result,
       mkBot (with_world (process b) w)
             (match snd result with
              | AddstockReturned => awaiting_addstock b
              | AddstockAwaitingSend ticker config =>
                  awaiting_addstock b ++ [(ticker, config)]
              end))
  | Removestock t =>
      let (replies, w) := removestock t (world (process b)) in
      (replies, mkBot (with_world (process b) w) (awaiting_addstock b))
  | Setinterval s =>
      let (replies, p) := setinterval env s (process b) in
      (replies, mkBot p (awaiting_addstock b))
  end.

(** What happens to the running bot: a command arrives, the send that a
    waiting [addstock] awaits returns or raises, or an event of the
    scheduler takes place. *)
Inductive action : Type :=
| Command (c : command)
| AddstockResumes (k : nat) (failed : bool)
| Event (e : event).

Definition act (env : Env) (b : Bot) (a : action) : Bot :=
  match a with
  | Command c => snd (handle env c b)
  | AddstockResumes k failed =>
      match awaiting_addstock b !! k with
      | Some (ticker, config) =>
          mkBot (if failed then process b
                 else with_world (process b)
                        (snd (addstock_resumed env ticker config (world (process b)))))
                (delete k (awaiting_addstock b))
      | None => b
      end
  | Event e => mkBot (step env (process b) e) (awaiting_addstock b)
  end.

(** The file is rewritten from outside the bot. *)
Definition external_write (a : action) : bool :=
  match a with Event (WriteConfig _) => true | _ => false end.

(** The interval is a preset and the watch-list has no duplicate. *)
Definition config_fine (config : Config) : Prop :=
  In (interval_minutes config) preset_minutes /\ List.NoDup (stocks config).

Definition config_ok (w : World) : Prop := config_fine (fst (load_config w)).

(** What a waiting [addstock] holds: a fine dict and a ticker not in it. *)
Definition awaiting_ok (x : string * Config) : Prop :=
  config_fine (snd x) /\ ~ In (fst x) (stocks (snd x)).

Definition bot_ok (b : Bot) : Prop :=
  config_ok (world (process b)) /\ only_handle_active (process b) /\
  Forall awaiting_ok (awaiting_addstock b).

Lemma config_ok_file (w1 w2 : World) :
  config_file w1 = config_file w2 -> config_ok w2 -> config_ok w1.
Proof.
  intros E. unfold config_ok. rewrite (load_config_file w1 w2 E). tauto.
Qed.

Lemma setchannel_eq (i : Z) (n : string) (w : World) :
  snd (setchannel i n w) =
  snd (save_config (with_channel_id (fst (load_config w)) (Some i)) w).
Proof.
  unfold setchannel, bind, ret.
  destruct (load_config w) as [config w0] eqn:Hload.
  assert (Hw0 : w0 = w) by (unfold load_config in Hload; congruence).
  subst w0. reflexivity.
Qed.

Lemma step_config_ok (env : Env) (p : Process) (e : event) :
  external_write (Event e) = false ->
  config_ok (world p) -> config_ok (world (step env p e)).
Proof.
  intros Hext Hok.
  destruct e as [ | tid failed | b | f | ticker]; cbn [step];
    try exact Hok; try discriminate Hext.
  - unfold wake. destruct (tasks p !! tid) as [t | ]; [ | exact Hok].
    destruct (done t); [exact Hok | ].
    match goal with |- context [scheduled_update_loop env ?rd ?pt ?r ?w] =>
      pose proof (proj2 (scheduled_update_loop_effects env rd pt r w)) as H;
      destruct (scheduled_update_loop env rd pt r w) as [pt' w1] end.
    cbn [world snd] in *. eapply config_ok_file; [exact H | exact Hok].
  - cbn [world]. unfold get_stock_data.
    eapply config_ok_file; [ | exact Hok].
    apply (get_cached_stock_effects env ticker (world p)).
Qed.

Lemma setinterval_ok (env : Env) (s : option string) (p : Process) :
  config_ok (world p) -> only_handle_active p ->
  config_ok (world (snd (setinterval env s p))) /\
  only_handle_active (snd (setinterval env s p)).
Proof.
  intros Hok Hinv. unfold setinterval.
  destruct (if falsy_argument s then None
            else preset_lookup (lower (default ""%string s)) INTERVAL_PRESETS)
    as [m | ] eqn:Hchosen; [ | split; assumption].
  assert (Hm : In m preset_minutes).
  { destruct (falsy_argument s); [discriminate Hchosen | ].
    eapply preset_lookup_In, Hchosen. }
  unfold read_now_ET. cbn [snd world].
  split.
  - eapply config_ok_file;
      [ | unfold config_ok;
          rewrite (load_config_save_config
                     (with_interval_minutes (fst (load_config (world p))) m)
                     (world p));
          split; [exact Hm | exact (proj2 Hok)]].
    reflexivity.
  - set (p0 := mkProcess _ (tasks p) (scheduled_task p) (ready p)).
    intros tid t Hl Ha. cbn [tasks scheduled_task] in *.
    exact (proj1 (start_scheduled_task_active p0 tid t Hinv Hl Ha)).
Qed.

Lemma act_ok (env : Env) (b : Bot) (a : action) :
  external_write a = false -> bot_ok b -> bot_ok (act env b a).
Proof.
  intros Hext (Hok & Hinv & Hwait). destruct a as [c | k failed | e]; cbn [act].
  - destruct c as [i n | t | t | s]; cbn [handle].
    + pose proof (setchannel_eq i n (world (process b))) as E.
      destruct (setchannel i n (world (process b))) as [replies w]. cbn [snd] in *.
      subst w. split; [ | split; assumption]. cbn [process world with_world].
      unfold config_ok in *. rewrite load_config_save_config. exact Hok.
    + destruct (addstock_eq t (world (process b))) as (Hw & Hp).
      destruct (addstock t (world (process b))) as [[replies progress] w].
      cbn [fst snd] in *. subst w.
      split; [exact Hok | ]. split; [exact Hinv | ].
      cbn [awaiting_addstock]. rewrite Hp.
      destruct (falsy_argument t); [exact Hwait | ].
      destruct (list_mem _ _) eqn:Hm; [exact Hwait | ].
      apply Forall_app. split; [exact Hwait | ].
      constructor; [ | constructor].
      split; [exact Hok | apply list_mem_false; exact Hm].
    + pose proof (removestock_eq t (world (process b))) as E. cbv zeta in E.
      destruct (removestock t (world (process b))) as [replies w]. cbn [snd] in *.
      subst w. split; [ | split; assumption]. cbn [process world with_world].
      destruct (falsy_argument t); [exact Hok | ].
      destruct (negb _); [exact Hok | ].
      unfold config_ok in *. rewrite load_config_save_config.
      destruct Hok as (Hi & Hnd).
      split; [exact Hi | apply list_remove_NoDup; exact Hnd].
    + destruct (setinterval_ok env s (process b) Hok Hinv) as (H1 & H2).
      destruct (setinterval env s (process b)) as [replies p]. cbn [snd] in *.
      split; [exact H1 | split; [exact H2 | exact Hwait]].
  - destruct (awaiting_addstock b !! k) as [[ticker config] | ] eqn:Hk;
      [ | split; [exact Hok | split; assumption]].
    pose proof (Forall_lookup_1 _ _ _ _ Hwait Hk) as ((Hi & Hnd) & Hnin).
    cbn [fst snd] in *.
    destruct failed;
      [split; [exact Hok | split; [exact Hinv | apply Forall_delete; exact Hwait]] | ].
    split; [ | split; [exact Hinv | apply Forall_delete; exact Hwait]].
    cbn [process world with_world]. rewrite addstock_resumed_eq.
    destruct (get_cached_stock_effects env ticker (world (process b))) as (Hc & _).
    destruct (fst (get_cached_stock env ticker (world (process b)))).
    + unfold config_ok. rewrite load_config_save_config.
      split; [exact Hi | apply NoDup_snoc; assumption].
    + eapply config_ok_file; [exact Hc | exact Hok].
  - split; [apply step_config_ok; assumption | ].
    split; [apply step_active; exact Hinv | exact Hwait].
Qed.

(** X22: from a start whose stored interval is a preset and whose
    watch-list has no duplicate, whatever follows of commands (setchannel,
    addstock, removestock, setinterval), of waiting addstock handlers
    resumed or ended by a failed send, and of scheduler events, in any
    order and with any of them between the two parts of an addstock, as
    long as nothing but the bot rewrites the file: the stored interval stays one of 15, 30, 60,
    120, 240 (so the loop never divides by 0), the watch-list stays free of
    duplicates, and at most one scheduler task is active. *)
Theorem bot_invariants (env : Env) (w : World) (actions : list action) :
  config_ok w ->
  Forall (fun a => external_write a = false) actions ->
  let p := process (fold_left (act env) actions (mkBot (boot w) [])) in
  In (interval_minutes (fst (load_config (world p)))) preset_minutes /\
  interval_minutes (fst (load_config (world p))) <> 0 /\
  List.NoDup (stocks (fst (load_config (world p)))) /\
  (forall i j ti tj,
     tasks p !! i = Some ti -> tasks p !! j = Some tj ->
     active ti = true -> active tj = true -> i = j).
Proof.
  intros Hok Hext. cbv zeta.
  assert (Hinv : bot_ok (fold_left (act env) actions (mkBot (boot w) []))).
  { assert (H0 : bot_ok (mkBot (boot w) [])).
    { split; [exact Hok | ]. split; [ | constructor].
      intros tid t Hl. cbn in Hl. rewrite lookup_nil in Hl. discriminate Hl. }
    revert H0. generalize (mkBot (boot w) []).
    induction Hext as [ | a rest Ha _ IH]; intros b Hb; cbn [fold_left].
    - exact Hb.
    - apply IH, act_ok; assumption. }
  destruct Hinv as ((Hi & Hnd) & Hact & _).
  split; [exact Hi | ].
  split; [apply preset_minutes_cases in Hi; lia | ].
  split; [exact Hnd | ].
  intros i j ti tj Hli Hlj Hai Haj.
  pose proof (Hact i ti Hli Hai) as Ei. pose proof (Hact j tj Hlj Haj) as Ej.
  congruence.
Qed.

(** A session in which [setinterval] runs while [addstock] waits. *)
Definition session_with_overlap : list action :=
  [Event (SetReady true); Event CallStart;
   Command (Setchannel 42 "stocks"); Command (Addstock (Some "aapl"%string));
   Command (Setinterval (Some "15m"%string)); AddstockResumes 0 false;
   Event (Wake 1 false)].

Lemma bot_invariants_witness :
  let p := process (fold_left (act env_aapl) session_with_overlap
                              (mkBot (boot empty_world) [])) in
  In (interval_minutes (fst (load_config (world p)))) preset_minutes /\
  interval_minutes (fst (load_config (world p))) <> 0 /\
  List.NoDup (stocks (fst (load_config (world p)))) /\
  (forall i j ti tj,
     tasks p !! i = Some ti -> tasks p !! j = Some tj ->
     active ti = true -> active tj = true -> i = j).
Proof.
  apply (bot_invariants env_aapl empty_world session_with_overlap).
  - split; [cbn; tauto | constructor].
  - repeat constructor.
Defined.

(** In that session the resumed [addstock] writes back the 60 minutes it
    had loaded, while the scheduler task restarted for 15 minutes runs
    on. *)
Example bot_session :
  let b := fold_left (act env_aapl) session_with_overlap
                     (mkBot (boot empty_world) []) in
  fst (load_config (world (process b))) = mkConfig (Some 42) ["AAPL"%string] 60 /\
  tasks (process b) = [mkTask NotStarted true; mkTask AtSleep false] /\
  scheduled_task (process b) = Some 1%nat /\
  awaiting_addstock b = [].
Proof. vm_compute. repeat split; reflexivity. Qed.

(** X23: [setchannel] stores the id of the channel of the command and
    keeps watch-list and interval; with a nonzero id and a watch-list that
    is not empty, the next cycle inside trading hours posts exactly one
    message to the channel that id resolves to, and with an empty
    watch-list it posts nothing. *)
Theorem setchannel_then_update (env : Env) (cid : Z) (name : string) (w : World) :
  let w1 := snd (setchannel cid name w) in
  fst (load_config w1) = with_channel_id (fst (load_config w)) (Some cid) /\
  sent w1 = sent w /\
  (stocks (fst (load_config w)) = [] ->
   sent (snd (run_scheduled_update env w1)) = sent w) /\
  (forall channel,
     cid <> 0 -> stocks (fst (load_config w)) <> [] ->
     is_trading_hours (datetime_now_ET env (clock_reads w1)) = true ->
     get_channel env cid = Some channel ->
     exists embed,
       sent (snd (run_scheduled_update env w1)) = sent w ++ [(channel, embed)]).
Proof.
  cbv zeta. rewrite setchannel_eq.
  set (w1 := snd (save_config (with_channel_id (fst (load_config w)) (Some cid)) w)).
  assert (Hcfg : fst (load_config w1) = with_channel_id (fst (load_config w)) (Some cid))
    by apply load_config_save_config.
  assert (Hsent : sent w1 = sent w) by reflexivity.
  split; [exact Hcfg | split; [exact Hsent | ]].
  split.
  - intros Hempty. rewrite run_scheduled_update_eq. cbv zeta.
    rewrite Hcfg. cbn [with_channel_id channel_id stocks]. rewrite Hempty.
    cbn [falsy_list]. rewrite orb_true_r. exact Hsent.
  - intros channel Hnz Hstocks Hth Hch.
    rewrite run_scheduled_update_eq. cbv zeta.
    rewrite Hcfg. cbn [with_channel_id channel_id stocks falsy_channel_id].
    change (get_channel env (default 0 (Some cid))) with (get_channel env cid).
    assert (Hz : (cid =? 0) = false) by (apply Z.eqb_neq; exact Hnz).
    rewrite Hz.
    destruct (stocks (fst (load_config w))) as [ | t rest]; [congruence | ].
    cbn [falsy_list orb]. rewrite Hth. cbn [negb]. rewrite Hch.
    rewrite create_stock_embed_eq.
    unfold channel_send. cbn [fst snd sent tick].
    rewrite (proj2 (fetch_all_stocks_spec env (t :: rest) (tick w1))).
    cbn [tick sent]. rewrite Hsent. eexists. reflexivity.
Qed.

Lemma setchannel_then_update_witness :
  exists embed,
    sent (snd (run_scheduled_update env_aapl
                 (snd (setchannel 7 "alerts" world_two_stocks)))) =
    sent world_two_stocks ++ [(7, embed)].
Proof.
  refine (proj2 (proj2 (proj2 (setchannel_then_update env_aapl 7 "alerts"
                                 world_two_stocks)))
                7 _ _ _ _).
  - discriminate.
  - discriminate.
  - vm_compute. reflexivity.
  - reflexivity.
Defined.
